(** * convert.py: the NMF container parser and stream demultiplexer

    A shallow embedding of [src/convert.py]: the [struct] decoders it
    calls, the packet-header decoder, the parameter-block scan, the
    packet loop of [chunks_generator] and the accumulation and format
    selection of [convert_to_mp3], followed by the properties of the
    specification that can be settled on them.

    Conventions.
    - Python integers are unbounded: they are [Z].
    - [bytes] objects are lists of [Byte.byte].
    - [struct] formats without a byte-order prefix are native; the model
      fixes the little-endian layout of the machines the script runs on.
    - An exception is a value of [exn]; a computation that may raise
      returns a [result]. *)

From Stdlib Require Import ZArith Strings.Byte.
From Equations Require Import Equations.
From stdpp Require Import base tactics option list strings gmap.

Local Open Scope Z_scope.

(** ** Exceptions and results *)

(** The two messages of [struct.error] the script can provoke. *)
Inductive struct_msg : Type :=
  | requires_buffer (n : Z)   (* "unpack requires a buffer of n bytes" *)
  | bad_char.                 (* "bad char in struct format" *)

Inductive exn : Type :=
  | struct_error (m : struct_msg)
  | UnboundLocalError (name : string)
  | KeyError (key : Z)
  | SystemExit (msg : string).

Inductive result (A : Type) : Type :=
  | Ok (a : A)
  | Raise (e : exn).
Arguments Ok {A} a.
Arguments Raise {A} e.

#[global] Instance result_ret : MRet result := λ A a, Ok a.
#[global] Instance result_bind : MBind result := λ A B f m,
  match m with
  | Ok a => f a
  | Raise e => Raise e
  end.
#[global] Instance result_fmap : FMap result := λ A B f m,
  match m with
  | Ok a => Ok (f a)
  | Raise e => Raise e
  end.

Definition raises {A} (m : result A) : Prop := ∃ e, m = Raise e.

(** ** Byte strings and Python slicing *)

Abbreviation bytes := (list Byte.byte).

#[global] Instance byte_eq_dec : EqDecision Byte.byte := Byte.byte_eq_dec.

Definition len {A} (l : list A) : Z := Z.of_nat (length l).

(** A slice bound as Python normalises it: a negative bound counts from
    the end, and every bound is clamped to [0, len]. *)
Definition py_index (n i : Z) : Z :=
  if i <? 0 then Z.max 0 (n + i) else Z.min i n.

(** [data[lo:hi]]. *)
Definition slice {A} (data : list A) (lo hi : Z) : list A :=
  let lo' := py_index (len data) lo in
  let hi' := py_index (len data) hi in
  take (Z.to_nat (hi' - lo')) (drop (Z.to_nat lo') data).

(** [range(start, stop, step)] for a positive step. *)
Definition py_range (start stop step : Z) : list Z :=
  (λ k : nat, start + step * Z.of_nat k) <$>
    seq 0 (Z.to_nat ((stop - start + step - 1) / step)).

(** ** The [struct] module *)

Module struct.

Fixpoint le_unsigned (bs : bytes) : Z :=
  match bs with
  | [] => 0
  | b :: rest => Z.of_N (Byte.to_N b) + 256 * le_unsigned rest
  end.

Definition to_signed (bits : Z) (u : Z) : Z :=
  if u <? 2 ^ (bits - 1) then u else u - 2 ^ bits.

(** A format of fixed size: the buffer must have exactly that size. *)
Definition unpack_sized {A} (size : Z) (decode : bytes → A)
    (buf : bytes) : result A :=
  if len buf =? size then Ok (decode buf)
  else Raise (struct_error (requires_buffer size)).

(** ["b"]: signed char. *)
Definition unpack_b : bytes → result Z :=
  unpack_sized 1 (λ bs, to_signed 8 (le_unsigned bs)).
(** ["h"]: short. *)
Definition unpack_h : bytes → result Z :=
  unpack_sized 2 (λ bs, to_signed 16 (le_unsigned bs)).
(** ["i"]: int. *)
Definition unpack_i : bytes → result Z :=
  unpack_sized 4 (λ bs, to_signed 32 (le_unsigned bs)).
(** ["I"]: unsigned int. *)
Definition unpack_I : bytes → result Z :=
  unpack_sized 4 le_unsigned.
(** ["d"]: double.  The two time stamps are decoded and never used;
    the model keeps the 64-bit pattern of the value. *)
Definition unpack_d : bytes → result Z :=
  unpack_sized 8 le_unsigned.

(** ["{}s".format(n)]: a byte string of [n] bytes.  A negative [n]
    prints with a minus sign, which is no format character. *)
Definition unpack_s (n : Z) (buf : bytes) : result bytes :=
  if n <? 0 then Raise (struct_error bad_char)
  else unpack_sized n (λ bs, bs) buf.

End struct.

(** ** Python objects, as far as [get_data_value] compares them *)

#[local] Unset Elimination Schemes.
Inductive pyobj : Type :=
  | py_int (z : Z)
  | py_bytes (b : bytes)
  | py_tuple (items : list pyobj).
#[local] Set Elimination Schemes.

(** [a == b]: objects of different types are never equal. *)
Fixpoint py_eq (a b : pyobj) : bool :=
  match a, b with
  | py_int x, py_int y => bool_decide (x = y)
  | py_bytes x, py_bytes y => bool_decide (x = y)
  | py_tuple xs, py_tuple ys =>
      (fix all2 (xs ys : list pyobj) : bool :=
         match xs, ys with
         | [], [] => true
         | x :: xs', y :: ys' => py_eq x y && all2 xs' ys'
         | _, _ => false
         end) xs ys
  | _, _ => false
  end.

(** ** The script *)

(** [formats]: the codec of each compression code. *)
Definition formats : gmap Z string :=
  list_to_map
    [ (0, "g729"); (1, "g726"); (2, "g726"); (3, "alaw"); (7, "mulaw");
      (8, "g729"); (9, "g723_1"); (10, "g723_1"); (19, "g722") ]%string.

(** The dictionary [get_packet_header] returns. *)
Record PacketHeader : Type := {
  packet_type : Z;
  packet_subtype : Z;
  stream_id : Z;
  start_time : Z;
  end_time : Z;
  packet_size : Z;
  parameters_size : Z
}.

Definition get_packet_header (data : bytes) : result PacketHeader :=
  packet_type ← struct.unpack_b (slice data 0 1);
  packet_subtype ← struct.unpack_h (slice data 1 3);
  stream_id ← struct.unpack_b (slice data 3 4);
  start_time ← struct.unpack_d (slice data 4 12);
  end_time ← struct.unpack_d (slice data 12 20);
  packet_size ← struct.unpack_I (slice data 20 24);
  parameters_size ← struct.unpack_I (slice data 24 28);
  mret {| packet_type := packet_type;
          packet_subtype := packet_subtype;
          stream_id := stream_id;
          start_time := start_time;
          end_time := end_time;
          packet_size := packet_size;
          parameters_size := parameters_size |}.

Definition get_data_value (data : bytes) (data_size : Z) : result Z :=
  (* fmt = "{}s".format(data_size); [data_value] is the 1-tuple that
     unpack returns, kept here by its only item *)
  data_value ← struct.unpack_s data_size (slice data 0 data_size);
  data_value ←
    (if py_eq (py_tuple [py_bytes data_value]) (py_int 0)
     then struct.unpack_s data_size (slice data 8 data_size)
     else mret data_value);
  (* struct.unpack("b", data_value[0]), then item 0 of its result *)
  struct.unpack_b data_value.

(** The body of the [for] loop of [get_compression_type], over the
    offsets [range] still has to deliver; falling off the end of the
    loop returns [None]. *)
Fixpoint get_compression_type_from (data : bytes) (offsets : list Z)
    : result (option Z) :=
  match offsets with
  | [] => mret None
  | i :: offsets' =>
      type_id ← struct.unpack_h (slice data i (i + 2));
      data_size ← struct.unpack_i (slice data (i + 2) (i + 6));
      temp ← struct.unpack_s 16 (slice data (i + 6) (i + 22));
      if type_id =? 10 then Some <$> get_data_value temp data_size
      else get_compression_type_from data offsets'
  end.

Definition get_compression_type (data : bytes) : result (option Z) :=
  get_compression_type_from data (py_range 0 (len data) 22).

(** What the generator yields: [(compression, stream_id, raw_audio_chunk)]. *)
Abbreviation Chunk := (option Z * Z * bytes)%type.

(** The condition of the [if] in the packet loop. *)
Definition is_media (headers : PacketHeader) : bool :=
  (packet_type headers =? 4) && bool_decide (packet_subtype headers ∈ [0; 3])
  || (packet_type headers =? 5) && (packet_subtype headers =? 300).

(** The [if] statement of the packet loop: what the packet whose header
    ends at [packet_header_end] makes the generator yield. *)
Definition media_chunk (data : bytes) (packet_header_end : Z)
    (headers : PacketHeader) : result (list Chunk) :=
  if is_media headers then
    let chunk_start := packet_header_end + parameters_size headers in
    let chunk_end :=
      chunk_start + packet_size headers - parameters_size headers in
    let chunk_length := chunk_end - chunk_start in
    raw_audio_chunk ←
      struct.unpack_s chunk_length (slice data chunk_start chunk_end);
    compression ←
      get_compression_type
        (slice data packet_header_end
           (packet_header_end + parameters_size headers));
    mret [(compression, stream_id headers, raw_audio_chunk)]
  else mret [].

(** *** Termination of the packet loop

    The loop has no bounds check of its own: it ends at a packet of
    type 7 or when a [struct] call raises.  A header that decodes took
    28 bytes at the cursor, and [packet_size] is unsigned, so the bytes
    left after the cursor decrease. *)

Lemma len_nonneg {A} (l : list A) : 0 ≤ len l.
Proof. unfold len. lia. Qed.

Lemma slice_len {A} (data : list A) (lo hi : Z) :
  0 ≤ lo → 0 ≤ hi →
  len (slice data lo hi) = Z.max 0 (Z.min hi (len data) - Z.min lo (len data)).
Proof.
  intros Hlo Hhi. unfold slice, py_index.
  rewrite !(proj2 (Z.ltb_ge _ _)) by done.
  unfold len. rewrite length_take, length_drop. lia.
Qed.

Lemma unpack_sized_Ok {A} size (decode : bytes → A) buf v :
  struct.unpack_sized size decode buf = Ok v →
  len buf = size ∧ v = decode buf.
Proof.
  unfold struct.unpack_sized. destruct (Z.eqb_spec (len buf) size); naive_solver.
Qed.

Lemma unpack_sized_Raise {A} size (decode : bytes → A) buf :
  len buf ≠ size →
  struct.unpack_sized size decode buf = Raise (struct_error (requires_buffer size)).
Proof.
  intros Hne. unfold struct.unpack_sized.
  by destruct (Z.eqb_spec (len buf) size).
Qed.

Lemma le_unsigned_nonneg bs : 0 ≤ struct.le_unsigned bs.
Proof. induction bs as [|b bs IH]; simpl; lia. Qed.

Lemma bind_Ok {A B} (m : result A) (f : A → result B) b :
  m ≫= f = Ok b → ∃ a, m = Ok a ∧ f a = Ok b.
Proof. destruct m; naive_solver. Qed.

Lemma get_packet_header_Ok data headers :
  get_packet_header data = Ok headers →
  28 ≤ len data ∧ 0 ≤ packet_size headers ∧ 0 ≤ parameters_size headers.
Proof.
  unfold get_packet_header. intros H.
  repeat (apply bind_Ok in H as (? & ? & H)).
  injection H as <-. simpl.
  repeat match goal with
         | H : _ = Ok _ |- _ => apply unpack_sized_Ok in H as [? ->]
         end.
  rewrite slice_len in * by lia.
  split_and!; [lia | apply le_unsigned_nonneg..].
Qed.

Lemma header_decoded_advances data start headers :
  get_packet_header (slice data start (start + 28)) = Ok headers →
  (Z.to_nat (len data - (start + packet_size headers + 28))
   < Z.to_nat (len data - start))%nat.
Proof.
  intros H. apply get_packet_header_Ok in H as (Hlen & Hsize & _).
  pose proof (len_nonneg data).
  destruct (Z.lt_ge_cases start 0); [lia|].
  rewrite slice_len in Hlen by lia. lia.
Qed.

(** *** The packet loop *)

(** A run of the generator: the chunks it yielded, in order, and how it
    ended: [Ok ()] when the loop was left at [break], [Raise e] when [e]
    escaped.  [decoded] is a log kept for the proofs: the cursor and the
    header of every packet whose header was decoded. *)
Record Run : Type := {
  decoded : list (Z * PacketHeader);
  chunks : list Chunk;
  final : result unit
}.

Definition run_cons (start : Z) (headers : PacketHeader)
    (emitted : list Chunk) (rest : Run) : Run :=
  {| decoded := (start, headers) :: decoded rest;
     chunks := emitted ++ chunks rest;
     final := final rest |}.

(** A value together with the equation that names it, for the
    termination argument. *)
Definition inspect {A} (a : A) : {b : A | a = b} := exist _ a eq_refl.

(** The [while True] loop, from the cursor [packet_header_start]. *)
Equations? chunks_loop (data : bytes) (packet_header_start : Z) : Run
  by wf (Z.to_nat (len data - packet_header_start)) lt :=
chunks_loop data packet_header_start
  with inspect (get_packet_header
                  (slice data packet_header_start (packet_header_start + 28))) => {
  | exist _ (Raise e) _ :=
      {| decoded := []; chunks := []; final := Raise e |}
  | exist _ (Ok headers) Hdec
      with media_chunk data (packet_header_start + 28) headers => {
      | Raise e :=
          {| decoded := [(packet_header_start, headers)];
             chunks := []; final := Raise e |}
      | Ok emitted with packet_type headers =? 7 => {
          | true :=
              {| decoded := [(packet_header_start, headers)];
                 chunks := emitted; final := Ok () |}
          | false :=
              run_cons packet_header_start headers emitted
                (chunks_loop data
                   (packet_header_start + (packet_size headers + 28))) } } }.
Proof.
  rewrite Z.add_assoc. by apply header_decoded_advances.
Qed.

(** [chunks_generator]; the argument is what [open] and [read] give for
    the path: the bytes of the file, or nothing when [IOError] is
    raised. *)
Definition chunks_generator (file : option bytes) : Run :=
  match file with
  | None =>
      {| decoded := []; chunks := [];
         final := Raise (SystemExit "No such file") |}
  | Some data => chunks_loop data 0
  end.

(** *** [convert_to_mp3] *)

(** The local variables of [convert_to_mp3] that outlive the first
    loop.  [audio_chunks] is the dictionary, in insertion order;
    [compression] is the loop variable, unbound ([None]) as long as the
    loop has not bound it, then bound to the compression of the chunk
    taken last, which itself is Python's [None] or a code. *)
Record Locals : Type := {
  audio_chunks : list (Z * bytes);
  compression : option (option Z)
}.

Definition initial_locals : Locals :=
  {| audio_chunks := [(0, []); (1, [])]; compression := None |}.

(** [key in d]. *)
Definition dict_contains (key : Z) (d : list (Z * bytes)) : bool :=
  bool_decide (key ∈ d.*1).

(** [d[key] += value], for a key of [d]. *)
Fixpoint dict_iadd (key : Z) (value : bytes) (d : list (Z * bytes))
    : list (Z * bytes) :=
  match d with
  | [] => []
  | (k, old) :: d' =>
      if decide (k = key) then (k, old ++ value) :: d'
      else (k, old) :: dict_iadd key value d'
  end.

(** One iteration of the first [for] loop. *)
Definition accumulate (st : Locals) (chunk : Chunk) : Locals :=
  let '(compression, stream_id, raw_audio_chunk) := chunk in
  {| audio_chunks :=
       if dict_contains stream_id (audio_chunks st)
       then dict_iadd stream_id raw_audio_chunk (audio_chunks st)
       else audio_chunks st;
     compression := Some compression |}.

(** [formats[key]]. *)
Definition formats_getitem (key : Z) : result string :=
  match formats !! key with
  | Some format => Ok format
  | None => Raise (KeyError key)
  end.

(** [formats[compression] if compression is not None else formats[0]]. *)
Definition select_format (compression : option (option Z)) : result string :=
  match compression with
  | None => Raise (UnboundLocalError "compression")
  | Some (Some code) => formats_getitem code
  | Some None => formats_getitem 0
  end.

(** One [ffmpeg] process of the second loop: the input format, what is
    written to its standard input, and the file it writes. *)
Record Popen : Type := {
  input_format : string;
  stdin : bytes;
  output : string
}.

(** The second [for] loop: one encoder per key of [audio_chunks]. *)
Definition encode_streams (st : Locals) : result (list Popen) :=
  mapM (λ '(stream_id, buffer),
          format ← select_format (compression st);
          mret {| input_format := format;
                  stdin := buffer;
                  output := if stream_id =? 0 then "temp_caller.mp3"
                            else "temp_receiver.mp3" |})
       (audio_chunks st).

(** The two loops on a sequence of chunks. *)
Definition convert_chunks (cs : list Chunk) : result (list Popen) :=
  encode_streams (foldl accumulate initial_locals cs).

(** [convert_to_mp3], up to the encoder processes it starts; mixing,
    logging and the removal of the temporary files follow and do not
    feed back.  An exception that escapes the generator escapes the
    first loop, and nothing is encoded. *)
Definition convert_to_mp3 (file : option bytes) : result (list Popen) :=
  let run := chunks_generator file in
  _ ← final run;
  convert_chunks (chunks run).

(** *** The entry point

    The block under [if __name__ == "__main__"].  The model takes what
    the file system gives as data: [folders] is what [os.listdir] lists
    in the source folder, in that order, each entry with what
    [os.path.isdir] says of it and, for a directory, its own listing,
    each name with the bytes [open] and [read] give for it ([None] when
    they raise [IOError]).  The steps of [convert_to_mp3] behind the
    selection of the formats -- the processes themselves, the mixing,
    the log entry, the removal of the temporary files -- are outside the
    model; [finishes hour_folder file_name calls] tells whether they run
    through or raise an exception.  Creating directories and setting up
    the log are taken to succeed. *)

(** [s.endswith(suffix)]. *)
Definition endswith (s suffix : string) : bool :=
  (String.length suffix <=? String.length s)%nat &&
  String.eqb
    (String.substring (String.length s - String.length suffix)
       (String.length suffix) s)
    suffix.

Record Folder : Type := {
  folder_name : string;
  folder_isdir : bool;
  folder_listing : list (string * option bytes)
}.

(** How the script ends. *)
Inductive Exit : Type :=
  | exit_end                       (* the end of the script is reached *)
  | exit_message (msg : string)    (* [sys.exit(msg)] *)
  | exit_error (e : exn)           (* [sys.exit(f"An error occurred: {e}")] *)
  | exit_external.                 (* the same, for an exception of the
                                      steps outside the model *)

(** A file that was converted: its folder, its name, and the encoders
    started for it. *)
Abbreviation Conversion := (string * string * list Popen)%type.

(** The inner [for] loop, over the listing of one hour folder: the
    files converted, and the exit if an exception ended the loop. *)
Fixpoint main_files (finishes : string → string → list Popen → bool)
    (hour_folder : string) (listing : list (string * option bytes))
    : list Conversion * option Exit :=
  match listing with
  | [] => ([], None)
  | (file_name, content) :: listing' =>
      if endswith file_name ".nmf" then
        match convert_to_mp3 content with
        | Ok calls =>
            if finishes hour_folder file_name calls then
              let '(converted, exit) :=
                main_files finishes hour_folder listing' in
              ((hour_folder, file_name, calls) :: converted, exit)
            else ([], Some exit_external)
        | Raise (SystemExit msg) => ([], Some (exit_message msg))
        | Raise e => ([], Some (exit_error e))
        end
      else main_files finishes hour_folder listing'
  end.

(** The outer [for] loop, over the entries of the source folder. *)
Fixpoint main_folders (finishes : string → string → list Popen → bool)
    (folders : list Folder) : list Conversion * option Exit :=
  match folders with
  | [] => ([], None)
  | folder :: folders' =>
      if folder_isdir folder then
        match main_files finishes (folder_name folder)
                (folder_listing folder) with
        | (converted, Some exit) => (converted, Some exit)
        | (converted, None) =>
            let '(converted', exit) := main_folders finishes folders' in
            (converted ++ converted', exit)
        end
      else main_folders finishes folders'
  end.

(** The script, for the command line [argv]: [sys.argv[1]] and
    [sys.argv[2]] raise [IndexError] when they are missing. *)
Definition main (finishes : string → string → list Popen → bool)
    (argv : list string) (folders : list Folder) : list Conversion * Exit :=
  match argv with
  | _ :: source_base_folder :: output_base_folder :: _ =>
      let '(converted, exit) := main_folders finishes folders in
      (converted, default exit_end exit)
  | _ =>
      ([], exit_message
             "Please specify the source folder and output base folder")
  end.

(** ** Containers to run the script on *)

Definition byte_of (z : Z) : Byte.byte :=
  default x00 (Byte.of_N (Z.to_N (z mod 256))).

(** [n] bytes of [z], least significant first. *)
Fixpoint le_bytes (n : nat) (z : Z) : bytes :=
  match n with
  | O => []
  | S n' => byte_of z :: le_bytes n' (z / 256)
  end.

(** A packet header with both time stamps zero. *)
Definition header_bytes (type subtype stream size params : Z) : bytes :=
  le_bytes 1 type ++ le_bytes 2 subtype ++ le_bytes 1 stream ++
  le_bytes 8 0 ++ le_bytes 8 0 ++ le_bytes 4 size ++ le_bytes 4 params.

(** A parameter record: the payload is padded with zeros to 16 bytes. *)
Definition record_bytes (type_id data_size : Z) (value : bytes) : bytes :=
  le_bytes 2 type_id ++ le_bytes 4 data_size ++
  take 16 (value ++ replicate 16 x00).

(** The scenario of the specification: a media packet of stream 0 with
    one marker record of code 3 and 28 bytes of payload, then a terminal
    header. *)
Definition scenario : bytes :=
  header_bytes 4 0 0 50 22 ++ record_bytes 10 1 [x03] ++
  replicate 28 xaa ++ header_bytes 7 0 0 0 0.

(** A source folder: one hour folder with three recordings, the second
    of them empty, and a text file; and an entry that is no directory. *)
Definition voice_folders : list Folder :=
  [ {| folder_name := "08"; folder_isdir := true;
       folder_listing :=
         [ ("a.nmf", Some scenario); ("notes.txt", None);
           ("b.nmf", Some []); ("c.nmf", Some scenario) ]%string |};
    {| folder_name := "index.nmf"; folder_isdir := false;
       folder_listing := [] |} ]%string.

(** The same without the empty recording. *)
Definition good_folders : list Folder :=
  [ {| folder_name := "08"; folder_isdir := true;
       folder_listing :=
         [ ("a.nmf", Some scenario); ("notes.txt", None) ]%string |};
    {| folder_name := "index.nmf"; folder_isdir := false;
       folder_listing := [] |} ]%string.

(** ** Notions the properties are stated with *)

(** The cursors the loop comes to: offset 0, and the offset after every
    packet that was decoded, raised nothing and is not of type 7. *)
Inductive cursor_reached (data : bytes) : Z → Prop :=
  | reached_first : cursor_reached data 0
  | reached_next start headers emitted :
      cursor_reached data start →
      get_packet_header (slice data start (start + 28)) = Ok headers →
      media_chunk data (start + 28) headers = Ok emitted →
      packet_type headers ≠ 7 →
      cursor_reached data (start + (packet_size headers + 28)).

(** Every exception of the parser comes out of a [struct.unpack] call:
    a result that is a value or a [struct.error]. *)
Definition struct_errors_only {A} (m : result A) : Prop :=
  match m with
  | Ok _ => True
  | Raise (struct_error _) => True
  | Raise _ => False
  end.

(** A chunk and the packet it is taken from: the chunk carries the
    stream id of the header; its bytes are the part of the container
    from the end of the parameter block to the end of the packet, and
    [packet_size - parameters_size] many; its compression is what the
    scan of the parameter block returns. *)
Definition chunk_of_packet (data : bytes)
    (packet : Z * PacketHeader) (chunk : Chunk) : Prop :=
  let '(start, headers) := packet in
  let '(compression, chunk_stream_id, raw) := chunk in
  chunk_stream_id = stream_id headers ∧
  raw = slice data (start + 28 + parameters_size headers)
          (start + 28 + packet_size headers) ∧
  len raw = packet_size headers - parameters_size headers ∧
  get_compression_type
    (slice data (start + 28) (start + 28 + parameters_size headers))
    = Ok compression.

(** The reference behaviour of the specification for the extractor: the
    first byte of the first [data_size] bytes of the payload, as a
    signed 8-bit integer. *)
Definition first_byte_signed (payload : bytes) (data_size : Z) : option Z :=
  (λ b, struct.to_signed 8 (Z.of_N (Byte.to_N b))) <$>
    head (take (Z.to_nat data_size) payload).

(** The record of the specification: 22 bytes, a signed 16-bit type, a
    signed 32-bit size and 16 bytes of payload. *)
Record ParameterRecord : Type := {
  type_id : Z;
  data_size : Z;
  payload : bytes
}.

(** The [k]-th record of a block. *)
Definition record_at (data : bytes) (k : nat) : ParameterRecord :=
  let i := 22 * Z.of_nat k in
  {| type_id := struct.to_signed 16 (struct.le_unsigned (slice data i (i + 2)));
     data_size :=
       struct.to_signed 32 (struct.le_unsigned (slice data (i + 2) (i + 6)));
     payload := slice data (i + 6) (i + 22) |}.

(** The records that are wholly inside the block. *)
Definition complete_records (data : bytes) : list ParameterRecord :=
  record_at data <$> seq 0 (Z.to_nat (len data / 22)).

(** The scan as the specification words it: the extractor on the first
    complete record of type 10, unknown when there is none; a partial
    record at the end is not considered. *)
Definition scan_spec (data : bytes) : result (option Z) :=
  match find (λ r, type_id r =? 10) (complete_records data) with
  | Some r => Some <$> get_data_value (payload r) (data_size r)
  | None => Ok None
  end.

(** The exception a partial record of [remaining] bytes provokes: the
    first field that does not get all its bytes. *)
Definition partial_record_error (remaining : Z) : exn :=
  struct_error
    (requires_buffer
       (if remaining <? 2 then 2 else if remaining <? 6 then 4 else 16)).

(** The bytes of the chunks of one stream, in the order of the chunks. *)
Definition stream_bytes (id : Z) (cs : list Chunk) : bytes :=
  mjoin ((λ c : Chunk, c.2) <$> filter (λ c : Chunk, c.1.2 = id) cs).

(** The compression the specification keeps for a stream: that of the
    stream's last chunk whose compression is known. *)
Definition last_known_code (id : Z) (cs : list Chunk) : option Z :=
  last (omap (λ c : Chunk, if decide (c.1.2 = id) then c.1.1 else None) cs).

(** The codec the specification gives a stream: that of its last known
    code, g729 (code 0) when it has none. *)
Definition codec_spec (id : Z) (cs : list Chunk) : result string :=
  formats_getitem (default 0 (last_known_code id cs)).

(** ** The layout of a packet header *)

(** The 28 bytes a header is decoded from, field after field, each
    binary field with its least significant byte first and a negative
    value in two's complement. *)
Definition pack_header (headers : PacketHeader) : bytes :=
  le_bytes 1 (packet_type headers) ++ le_bytes 2 (packet_subtype headers) ++
  le_bytes 1 (stream_id headers) ++
  le_bytes 8 (start_time headers) ++ le_bytes 8 (end_time headers) ++
  le_bytes 4 (packet_size headers) ++ le_bytes 4 (parameters_size headers).

(** The values the formats ["b"], ["h"] and ["I"] can deliver, and the
    64 bits of each time stamp. *)
Definition header_in_range (headers : PacketHeader) : Prop :=
  -128 ≤ packet_type headers < 128 ∧
  -32768 ≤ packet_subtype headers < 32768 ∧
  -128 ≤ stream_id headers < 128 ∧
  0 ≤ start_time headers < 2 ^ 64 ∧
  0 ≤ end_time headers < 2 ^ 64 ∧
  0 ≤ packet_size headers < 2 ^ 32 ∧
  0 ≤ parameters_size headers < 2 ^ 32.

(** ** Packets back to back *)

(** A log of packets that lie back to back from the offset [start]:
    each begins where the one before it ends, 28 bytes of header and
    [packet_size] bytes after its own beginning. *)
Fixpoint back_to_back (start : Z) (log : list (Z * PacketHeader)) : Prop :=
  match log with
  | [] => True
  | (cursor, headers) :: log' =>
      cursor = start ∧ back_to_back (cursor + 28 + packet_size headers) log'
  end.

(** The number of bytes the chunks of a sequence carry. *)
Definition payload_bytes (cs : list Chunk) : Z :=
  len (mjoin ((λ c : Chunk, c.2) <$> cs)).

(** ** Values in the range of a signed byte *)

(** A chunk whose stream id is a signed byte and whose compression is
    [None] or a signed byte. *)
Definition chunk_in_range (c : Chunk) : Prop :=
  -128 ≤ c.1.2 < 128 ∧
  match c.1.1 with
  | None => True
  | Some code => -128 ≤ code < 128
  end.

(** The names of the table [formats]. *)
Definition codecs : list string :=
  ["g729"; "g726"; "alaw"; "mulaw"; "g723_1"; "g722"]%string.

(** ** The files of a batch *)

(** The files the script opens, in the order it comes to them: the
    names ending in [.nmf] in the listings of the entries that are
    directories, each with its folder and its content. *)
Definition nmf_files (folders : list Folder)
    : list (string * string * option bytes) :=
  folder ← filter (λ f, folder_isdir f) folders;
  (λ file : string * option bytes, (folder_name folder, file.1, file.2)) <$>
    filter (λ file : string * option bytes, endswith file.1 ".nmf")
      (folder_listing folder).

(** A file for which [convert_to_mp3] runs to its end. *)
Definition converts (finishes : string → string → list Popen → bool)
    (file : string * string * option bytes) : Prop :=
  ∃ calls, convert_to_mp3 file.2 = Ok calls ∧
           finishes file.1.1 file.1.2 calls = true.

(** The exit a file that is not converted ends the script with. *)
Definition exit_of (file : string * string * option bytes) : Exit :=
  match convert_to_mp3 file.2 with
  | Ok _ => exit_external
  | Raise (SystemExit msg) => exit_message msg
  | Raise e => exit_error e
  end.

(** What a converted file adds to the list of conversions. *)
Definition conversion_of (file : string * string * option bytes) : Conversion :=
  (file.1.1, file.1.2,
   match convert_to_mp3 file.2 with
   | Ok calls => calls
   | Raise _ => []
   end).

(** The two loops as one, over the files the script opens. *)
Fixpoint run_files (finishes : string → string → list Popen → bool)
    (files : list (string * string * option bytes))
    : list Conversion * option Exit :=
  match files with
  | [] => ([], None)
  | file :: files' =>
      match convert_to_mp3 file.2 with
      | Ok calls =>
          if finishes file.1.1 file.1.2 calls then
            let '(converted, exit) := run_files finishes files' in
            ((file.1.1, file.1.2, calls) :: converted, exit)
          else ([], Some exit_external)
      | Raise (SystemExit msg) => ([], Some (exit_message msg))
      | Raise e => ([], Some (exit_error e))
      end
  end.

(** * Properties *)

(** ** The packet loop, one iteration at a time *)

Lemma chunks_loop_eq data start :
  chunks_loop data start =
  match get_packet_header (slice data start (start + 28)) with
  | Raise e => {| decoded := []; chunks := []; final := Raise e |}
  | Ok headers =>
      match media_chunk data (start + 28) headers with
      | Raise e =>
          {| decoded := [(start, headers)]; chunks := []; final := Raise e |}
      | Ok emitted =>
          if packet_type headers =? 7 then
            {| decoded := [(start, headers)]; chunks := emitted;
               final := Ok () |}
          else
            run_cons start headers emitted
              (chunks_loop data (start + (packet_size headers + 28)))
      end
  end.
Proof.
  rewrite chunks_loop_unfold_eq.
  with_strategy transparent [chunks_loop_unfold] unfold chunks_loop_unfold.
  generalize (inspect (get_packet_header (slice data start (start + 28)))).
  intros [[h|e] Heq]; simpl; [|by rewrite Heq].
  destruct (media_chunk data (start + 28) h) as [emitted|e] eqn:Hm; simpl;
    [|by rewrite Heq, Hm].
  destruct (packet_type h =? 7) eqn:H7; simpl; by rewrite Heq, Hm, H7.
Qed.

(** Induction over the iterations of the loop. *)
Lemma packet_loop_ind (data : bytes) (P : Z → Run → Prop) :
  (∀ start e,
     get_packet_header (slice data start (start + 28)) = Raise e →
     P start {| decoded := []; chunks := []; final := Raise e |}) →
  (∀ start headers e,
     get_packet_header (slice data start (start + 28)) = Ok headers →
     media_chunk data (start + 28) headers = Raise e →
     P start {| decoded := [(start, headers)]; chunks := [];
                final := Raise e |}) →
  (∀ start headers emitted,
     get_packet_header (slice data start (start + 28)) = Ok headers →
     media_chunk data (start + 28) headers = Ok emitted →
     packet_type headers = 7 →
     P start {| decoded := [(start, headers)]; chunks := emitted;
                final := Ok () |}) →
  (∀ start headers emitted,
     get_packet_header (slice data start (start + 28)) = Ok headers →
     media_chunk data (start + 28) headers = Ok emitted →
     packet_type headers ≠ 7 →
     P (start + (packet_size headers + 28))
       (chunks_loop data (start + (packet_size headers + 28))) →
     P start (run_cons start headers emitted
                (chunks_loop data (start + (packet_size headers + 28))))) →
  ∀ start, P start (chunks_loop data start).
Proof.
  intros Hdec Hmedia Hstop Hnext start.
  remember (Z.to_nat (len data - start)) as n eqn:Hn.
  revert start Hn. induction (lt_wf n) as [n _ IH]. intros start ->.
  rewrite chunks_loop_eq.
  destruct (get_packet_header _) as [h|e] eqn:Hh; [|by apply Hdec].
  destruct (media_chunk _ _ _) as [emitted|e] eqn:Hm; [|by apply Hmedia].
  destruct (Z.eqb_spec (packet_type h) 7); [by apply Hstop|].
  apply Hnext; [done..|].
  eapply IH; [|done]. rewrite Z.add_assoc. by apply header_decoded_advances.
Qed.

Lemma cursor_reached_nonneg data start : cursor_reached data start → 0 ≤ start.
Proof.
  induction 1 as [|start h emitted _ IH Hh _ _]; [done|].
  apply get_packet_header_Ok in Hh. lia.
Qed.

(** A run ends the way its part from any reached cursor ends. *)
Lemma cursor_reached_final data start :
  cursor_reached data start →
  final (chunks_loop data 0) = final (chunks_loop data start).
Proof.
  induction 1 as [|start h emitted _ IH Hh Hm H7]; [done|].
  rewrite IH, (chunks_loop_eq data start), Hh, Hm.
  by destruct (Z.eqb_spec (packet_type h) 7).
Qed.

(** The log holds reached cursors and the headers decoded there. *)
Lemma decoded_reached data start0 start headers :
  cursor_reached data start0 →
  (start, headers) ∈ decoded (chunks_loop data start0) →
  cursor_reached data start ∧
  get_packet_header (slice data start (start + 28)) = Ok headers.
Proof.
  revert start0.
  apply (packet_loop_ind data (λ start0 run,
    cursor_reached data start0 → (start, headers) ∈ decoded run → _));
    simpl.
  - intros ? ? _ _ ?%elem_of_nil. done.
  - intros s h e Hh _ Hr [= -> ->]%list_elem_of_singleton. done.
  - intros s h em Hh _ _ Hr [= -> ->]%list_elem_of_singleton. done.
  - intros s h em Hh Hm H7 IH Hr [[= -> ->]|Hin]%elem_of_cons; [done|].
    apply IH; [|done]. by eapply reached_next.
Qed.

(** ** Which exceptions the parser raises *)

Lemma struct_errors_only_Raise {A} (m : result A) e :
  struct_errors_only m → m = Raise e → ∃ msg, e = struct_error msg.
Proof. intros H ->. destruct e; naive_solver. Qed.

Lemma struct_errors_only_bind {A B} (m : result A) (f : A → result B) :
  struct_errors_only m → (∀ a, struct_errors_only (f a)) →
  struct_errors_only (m ≫= f).
Proof. destruct m; naive_solver. Qed.

Lemma struct_errors_only_fmap {A B} (m : result A) (f : A → B) :
  struct_errors_only m → struct_errors_only (f <$> m).
Proof. by destruct m. Qed.

Lemma unpack_sized_struct_errors {A} size (decode : bytes → A) buf :
  struct_errors_only (struct.unpack_sized size decode buf).
Proof. unfold struct.unpack_sized. by case_match. Qed.

Lemma unpack_s_struct_errors n buf : struct_errors_only (struct.unpack_s n buf).
Proof.
  unfold struct.unpack_s. case_match; [done|].
  apply unpack_sized_struct_errors.
Qed.

Create HintDb struct_errors.
#[local] Hint Resolve unpack_sized_struct_errors unpack_s_struct_errors
  struct_errors_only_fmap : struct_errors.

Ltac struct_errors :=
  repeat first
    [ apply struct_errors_only_bind; [|intros ?]
    | case_match
    | by eauto with struct_errors
    | by simpl ].

Lemma get_packet_header_struct_errors data :
  struct_errors_only (get_packet_header data).
Proof.
  unfold get_packet_header, struct.unpack_b, struct.unpack_h, struct.unpack_d,
    struct.unpack_I.
  struct_errors.
Qed.

Lemma get_data_value_struct_errors data data_size :
  struct_errors_only (get_data_value data data_size).
Proof. unfold get_data_value, struct.unpack_b. struct_errors. Qed.

Lemma get_compression_type_struct_errors data :
  struct_errors_only (get_compression_type data).
Proof.
  unfold get_compression_type.
  induction (py_range 0 (len data) 22) as [|i offsets IH]; [done|].
  simpl. unfold struct.unpack_h, struct.unpack_i.
  pose proof get_data_value_struct_errors. struct_errors.
Qed.

Lemma media_chunk_struct_errors data packet_header_end headers :
  struct_errors_only (media_chunk data packet_header_end headers).
Proof.
  unfold media_chunk. pose proof get_compression_type_struct_errors.
  struct_errors.
Qed.

Lemma chunks_loop_struct_errors data start :
  struct_errors_only (final (chunks_loop data start)).
Proof.
  revert start.
  apply (packet_loop_ind data (λ _ run, struct_errors_only (final run)));
    simpl; try done.
  - intros start e He. pose proof (get_packet_header_struct_errors
      (slice data start (start + 28))) as H. by rewrite He in H.
  - intros start h e _ He. pose proof (media_chunk_struct_errors
      data (start + 28) h) as H. by rewrite He in H.
Qed.

(** An exception that escapes the generator escapes [convert_to_mp3]. *)
Lemma convert_to_mp3_Raise file e :
  final (chunks_generator file) = Raise e → convert_to_mp3 file = Raise e.
Proof. unfold convert_to_mp3. by intros ->. Qed.

(** ** Truncated headers *)

Lemma unpack_sized_Raise_inv {A} size (decode : bytes → A) buf e :
  struct.unpack_sized size decode buf = Raise e →
  e = struct_error (requires_buffer size).
Proof. unfold struct.unpack_sized. case_match; naive_solver. Qed.

Lemma bind_Raise {A B} (m : result A) (f : A → result B) e :
  m ≫= f = Raise e → m = Raise e ∨ ∃ a, m = Ok a ∧ f a = Raise e.
Proof. destruct m; naive_solver. Qed.

Lemma get_packet_header_Raise data e :
  get_packet_header data = Raise e → ∃ n, e = struct_error (requires_buffer n).
Proof.
  unfold get_packet_header, struct.unpack_b, struct.unpack_h, struct.unpack_d,
    struct.unpack_I.
  intros H.
  repeat (apply bind_Raise in H as [H|(? & _ & H)];
          [apply unpack_sized_Raise_inv in H; eauto|]).
  done.
Qed.

Lemma get_packet_header_short data :
  len data < 28 → ∃ n, get_packet_header data = Raise (struct_error (requires_buffer n)).
Proof.
  intros Hlen. destruct (get_packet_header data) as [h|e] eqn:Hh.
  - apply get_packet_header_Ok in Hh. lia.
  - apply get_packet_header_Raise in Hh as [n ->]. eauto.
Qed.

(** C2.  When fewer than 28 bytes remain at a cursor the packet loop has
    come to, decoding the header there raises: a [struct.unpack] call of
    [get_packet_header] gets a buffer that is too short.  The exception
    ends the generator and [convert_to_mp3], so nothing of the file is
    encoded.  ([struct.error] is the only exception the parser has; it
    is what the specification names TruncatedHeaderError here.) *)
Theorem truncated_header_is_fatal (data : bytes) (start : Z) :
  cursor_reached data start →
  len data - start < 28 →
  ∃ n,
    get_packet_header (slice data start (start + 28))
      = Raise (struct_error (requires_buffer n)) ∧
    final (chunks_generator (Some data))
      = Raise (struct_error (requires_buffer n)) ∧
    convert_to_mp3 (Some data) = Raise (struct_error (requires_buffer n)).
Proof.
  intros Hr Hshort. pose proof (cursor_reached_nonneg _ _ Hr) as Hstart.
  destruct (get_packet_header_short (slice data start (start + 28)))
    as [n Hn].
  { rewrite slice_len by lia. lia. }
  exists n. split; [done|].
  assert (final (chunks_generator (Some data))
          = Raise (struct_error (requires_buffer n))) as Hfinal.
  { simpl. rewrite (cursor_reached_final data start Hr).
    by rewrite chunks_loop_eq, Hn. }
  split; [done|]. by apply convert_to_mp3_Raise.
Qed.

(** A file of 27 bytes: the first header is already truncated. *)
Lemma truncated_header_is_fatal_witness :
  ∃ n,
    get_packet_header (slice (replicate 27 x00) 0 (0 + 28))
      = Raise (struct_error (requires_buffer n)) ∧
    final (chunks_generator (Some (replicate 27 x00)))
      = Raise (struct_error (requires_buffer n)) ∧
    convert_to_mp3 (Some (replicate 27 x00))
      = Raise (struct_error (requires_buffer n)).
Proof.
  apply (truncated_header_is_fatal (replicate 27 x00) 0).
  - apply reached_first.
  - vm_compute. reflexivity.
Defined.

(** ** Packets whose parameter block is larger than the packet *)

Lemma media_chunk_not_media data packet_header_end headers :
  is_media headers = false →
  media_chunk data packet_header_end headers = Ok [].
Proof. unfold media_chunk. by intros ->. Qed.

Lemma media_chunk_negative_length data packet_header_end headers :
  is_media headers = true →
  packet_size headers < parameters_size headers →
  media_chunk data packet_header_end headers = Raise (struct_error bad_char).
Proof.
  intros Hmedia Hlt. unfold media_chunk, struct.unpack_s. rewrite Hmedia.
  cbv zeta. by rewrite (proj2 (Z.ltb_lt _ _)) by lia.
Qed.

(** C1, as stated, fails: the loop compares [packet_size] with
    [parameters_size] nowhere.  In the container below the first packet
    is of type 1 (no media packet) with [packet_size = 0] and
    [parameters_size = 5]; the loop steps over it, comes to the terminal
    header behind it and ends without an exception. *)
Lemma malformed_packet_unchecked :
  ¬ (∀ start headers,
       cursor_reached (header_bytes 1 0 0 0 5 ++ header_bytes 7 0 0 0 0) start →
       get_packet_header
         (slice (header_bytes 1 0 0 0 5 ++ header_bytes 7 0 0 0 0)
            start (start + 28)) = Ok headers →
       packet_size headers < parameters_size headers →
       raises (final (chunks_generator
                 (Some (header_bytes 1 0 0 0 5 ++ header_bytes 7 0 0 0 0))))).
Proof.
  intros Hclaim.
  destruct (Hclaim 0
    {| packet_type := 1; packet_subtype := 0; stream_id := 0;
       start_time := 0; end_time := 0;
       packet_size := 0; parameters_size := 5 |}) as [e He].
  - apply reached_first.
  - vm_compute. reflexivity.
  - simpl. lia.
  - vm_compute in He. discriminate He.
Qed.

(** C1, amended.  A media packet the loop comes to with
    [packet_size < parameters_size] ends the run with an exception: its
    payload length is negative, and the format string made from it is
    refused by [struct.unpack], before anything is yielded for the
    packet.  A packet that is no media packet is not examined: it yields
    nothing and the loop goes on, or stops if its type is 7, as for any
    other such packet. *)
Theorem malformed_packet (data : bytes) (start : Z) (headers : PacketHeader) :
  cursor_reached data start →
  get_packet_header (slice data start (start + 28)) = Ok headers →
  packet_size headers < parameters_size headers →
  if is_media headers then
    chunks_loop data start
      = {| decoded := [(start, headers)]; chunks := [];
           final := Raise (struct_error bad_char) |} ∧
    final (chunks_generator (Some data)) = Raise (struct_error bad_char) ∧
    convert_to_mp3 (Some data) = Raise (struct_error bad_char)
  else
    chunks_loop data start
      = if packet_type headers =? 7 then
          {| decoded := [(start, headers)]; chunks := []; final := Ok () |}
        else
          run_cons start headers []
            (chunks_loop data (start + (packet_size headers + 28))).
Proof.
  intros Hr Hh Hlt. destruct (is_media headers) eqn:Hmedia.
  - assert (chunks_loop data start
            = {| decoded := [(start, headers)]; chunks := [];
                 final := Raise (struct_error bad_char) |}) as Hloop.
    { by rewrite chunks_loop_eq, Hh, media_chunk_negative_length. }
    assert (final (chunks_generator (Some data))
            = Raise (struct_error bad_char)) as Hfinal.
    { simpl. by rewrite (cursor_reached_final data start Hr), Hloop. }
    split_and!; [done..|]. by apply convert_to_mp3_Raise.
  - by rewrite chunks_loop_eq, Hh, media_chunk_not_media.
Qed.

(** A media packet with [packet_size = 0] and [parameters_size = 1]. *)
Lemma malformed_packet_witness :
  chunks_loop (header_bytes 4 0 0 0 1) 0
    = {| decoded :=
           [(0, {| packet_type := 4; packet_subtype := 0; stream_id := 0;
                   start_time := 0; end_time := 0;
                   packet_size := 0; parameters_size := 1 |})];
         chunks := [];
         final := Raise (struct_error bad_char) |} ∧
  final (chunks_generator (Some (header_bytes 4 0 0 0 1)))
    = Raise (struct_error bad_char) ∧
  convert_to_mp3 (Some (header_bytes 4 0 0 0 1))
    = Raise (struct_error bad_char).
Proof.
  apply (malformed_packet (header_bytes 4 0 0 0 1) 0
    {| packet_type := 4; packet_subtype := 0; stream_id := 0;
       start_time := 0; end_time := 0;
       packet_size := 0; parameters_size := 1 |}).
  - apply reached_first.
  - vm_compute. reflexivity.
  - simpl. lia.
Defined.

(** ** Running past the end of the container *)

(** C3.  When the loop comes to a packet that is not of type 7 and
    whose end, 28 + [packet_size] bytes after the cursor, lies behind
    the end of the container, the run ends with an exception, and so
    does [convert_to_mp3]: either the packet is a media packet and
    unpacking its payload or scanning its parameters raises, or the
    loop advances behind the end, where the next header has no byte
    left.  No slice reads behind the end.  ([struct.error] is the only
    exception the parser has; it is what the specification names
    UnterminatedStreamError here.) *)
Theorem unterminated_stream_is_fatal
    (data : bytes) (start : Z) (headers : PacketHeader) :
  cursor_reached data start →
  get_packet_header (slice data start (start + 28)) = Ok headers →
  packet_type headers ≠ 7 →
  len data < start + 28 + packet_size headers →
  ∃ msg,
    final (chunks_generator (Some data)) = Raise (struct_error msg) ∧
    convert_to_mp3 (Some data) = Raise (struct_error msg).
Proof.
  intros Hr Hh H7 Hpast.
  pose proof (cursor_reached_nonneg _ _ Hr) as Hstart.
  pose proof (get_packet_header_Ok _ _ Hh) as (_ & Hsize & _).
  assert (∃ msg, final (chunks_loop data start) = Raise (struct_error msg))
    as [msg Hmsg].
  { rewrite chunks_loop_eq, Hh.
    destruct (media_chunk data (start + 28) headers) as [emitted|e] eqn:Hm.
    - destruct (Z.eqb_spec (packet_type headers) 7) as [?|_]; [done|]. simpl.
      destruct (get_packet_header_short
        (slice data (start + (packet_size headers + 28))
           (start + (packet_size headers + 28) + 28))) as [n Hn].
      { rewrite slice_len by lia. lia. }
      exists (requires_buffer n). by rewrite chunks_loop_eq, Hn.
    - simpl. eapply struct_errors_only_Raise in Hm as [msg ->];
        [by eauto|apply media_chunk_struct_errors]. }
  exists msg.
  assert (final (chunks_generator (Some data)) = Raise (struct_error msg))
    as Hfinal.
  { simpl. by rewrite (cursor_reached_final data start Hr). }
  split; [done|]. by apply convert_to_mp3_Raise.
Qed.

(** A packet of type 1 that announces 100 bytes the file does not have. *)
Lemma unterminated_stream_is_fatal_witness :
  ∃ msg,
    final (chunks_generator (Some (header_bytes 1 0 0 100 0)))
      = Raise (struct_error msg) ∧
    convert_to_mp3 (Some (header_bytes 1 0 0 100 0)) = Raise (struct_error msg).
Proof.
  apply (unterminated_stream_is_fatal (header_bytes 1 0 0 100 0) 0
    {| packet_type := 1; packet_subtype := 0; stream_id := 0;
       start_time := 0; end_time := 0;
       packet_size := 100; parameters_size := 0 |}).
  - apply reached_first.
  - vm_compute. reflexivity.
  - simpl. lia.
  - vm_compute. reflexivity.
Defined.

(** ** The terminal packet *)

(** A slice that ends within the first [n] items depends on them only. *)
Lemma slice_take {A} (data : list A) (n : nat) (lo hi : Z) :
  0 ≤ lo → 0 ≤ hi ≤ Z.of_nat n →
  slice (take n data) lo hi = slice data lo hi.
Proof.
  intros Hlo Hhi. unfold slice, py_index.
  rewrite !(proj2 (Z.ltb_ge _ _)) by lia.
  unfold len. rewrite length_take.
  destruct (Z.le_gt_cases lo hi).
  - rewrite !take_drop_commute, take_take. f_equal; [lia|]. f_equal. lia.
  - replace (Z.to_nat (Z.min hi (Z.of_nat (n `min` length data)) -
                       Z.min lo (Z.of_nat (n `min` length data))))
      with 0%nat by lia.
    replace (Z.to_nat (Z.min hi (Z.of_nat (length data)) -
                       Z.min lo (Z.of_nat (length data))))
      with 0%nat by lia.
    done.
Qed.

Lemma slice_agree {A} (data data' : list A) (n : nat) (lo hi : Z) :
  take n data' = take n data →
  0 ≤ lo → 0 ≤ hi ≤ Z.of_nat n →
  slice data' lo hi = slice data lo hi.
Proof.
  intros Heq Hlo Hhi.
  by rewrite <-(slice_take data' n), <-(slice_take data n), Heq.
Qed.

(** What a packet yields depends on the bytes of the packet only. *)
Lemma media_chunk_agree data data' (n : nat) packet_header_end headers :
  take n data' = take n data →
  0 ≤ packet_header_end →
  0 ≤ packet_size headers → 0 ≤ parameters_size headers →
  packet_header_end + packet_size headers ≤ Z.of_nat n →
  media_chunk data' packet_header_end headers
    = media_chunk data packet_header_end headers.
Proof.
  intros Heq Hend Hsize Hparams Hn. unfold media_chunk, struct.unpack_s.
  destruct (is_media headers); [|done]. cbv zeta.
  destruct (Z.ltb_spec
    (packet_header_end + parameters_size headers + packet_size headers
     - parameters_size headers
     - (packet_header_end + parameters_size headers)) 0); [done|].
  by rewrite !(slice_agree data data' n) by (done || lia).
Qed.

Lemma is_media_terminal headers : packet_type headers = 7 → is_media headers = false.
Proof. unfold is_media. by intros ->. Qed.

(** The cursors of a run do not go back. *)
Lemma decoded_cursor_ge data start0 start headers :
  (start, headers) ∈ decoded (chunks_loop data start0) → start0 ≤ start.
Proof.
  revert start0.
  apply (packet_loop_ind data (λ start0 run,
    (start, headers) ∈ decoded run → start0 ≤ start)); simpl.
  - by intros ? ? _ ?%elem_of_nil.
  - by intros s h e _ _ [= -> ->]%list_elem_of_singleton.
  - by intros s h em _ _ _ [= -> ->]%list_elem_of_singleton.
  - intros s h em Hh _ _ IH [[= -> ->]|Hin]%elem_of_cons; [done|].
    apply get_packet_header_Ok in Hh. specialize (IH Hin). lia.
Qed.

(** The shape of a run that comes to a packet of type 7: that packet is
    the last one decoded and the only one of its type, and the run ends
    without an exception. *)
Lemma terminal_packet_last data start0 start headers :
  (start, headers) ∈ decoded (chunks_loop data start0) →
  packet_type headers = 7 →
  ∃ log,
    decoded (chunks_loop data start0) = log ++ [(start, headers)] ∧
    Forall (λ p, packet_type p.2 ≠ 7) log ∧
    final (chunks_loop data start0) = Ok ().
Proof.
  intros Hin H7. revert start0 Hin.
  apply (packet_loop_ind data (λ start0 run,
    (start, headers) ∈ decoded run →
    ∃ log, decoded run = log ++ [(start, headers)] ∧
           Forall (λ p, packet_type p.2 ≠ 7) log ∧ final run = Ok ()));
    simpl.
  - by intros ? ? _ ?%elem_of_nil.
  - intros s h e _ Hm [= -> ->]%list_elem_of_singleton.
    by rewrite media_chunk_not_media in Hm by by apply is_media_terminal.
  - intros s h em _ _ _ [= -> ->]%list_elem_of_singleton. by exists [].
  - intros s h em _ _ Hn7 IH [[= -> ->]|Hin]%elem_of_cons; [done|].
    destruct (IH Hin) as (log & -> & Hlog & Hfinal).
    exists ((s, h) :: log). split_and!; [done| |done].
    by apply Forall_cons.
Qed.

Lemma final_Ok_decoded data start :
  final (chunks_loop data start) = Ok () →
  decoded (chunks_loop data start) ≠ [].
Proof.
  revert start.
  by apply (packet_loop_ind data (λ _ run, final run = Ok () → decoded run ≠ [])).
Qed.

(** A run that ends at a packet of type 7 is the same on every
    container with the same bytes up to the end of that packet's
    header. *)
Lemma chunks_loop_prefix data data' stop headers start0 :
  0 ≤ start0 →
  last (decoded (chunks_loop data start0)) = Some (stop, headers) →
  final (chunks_loop data start0) = Ok () →
  take (Z.to_nat (stop + 28)) data' = take (Z.to_nat (stop + 28)) data →
  chunks_loop data' start0 = chunks_loop data start0.
Proof.
  intros Hstart0 Hlast Hfinal Heq. revert start0 Hstart0 Hlast Hfinal.
  apply (packet_loop_ind data (λ start0 run,
    0 ≤ start0 → last (decoded run) = Some (stop, headers) →
    final run = Ok () → chunks_loop data' start0 = run)); simpl; try done.
  - intros s h em Hh Hm H7 Hs [= -> ->] _.
    rewrite chunks_loop_eq.
    rewrite (slice_agree data data' (Z.to_nat (stop + 28))) by (done || lia).
    rewrite Hh, !media_chunk_not_media by by apply is_media_terminal.
    rewrite media_chunk_not_media in Hm by by apply is_media_terminal.
    injection Hm as <-. by rewrite H7.
  - intros s h em Hh Hm Hn7 IH Hs Hlast Hfinal.
    pose proof (get_packet_header_Ok _ _ Hh) as (_ & Hsize & Hparams).
    destruct (decoded (chunks_loop data (s + (packet_size h + 28))))
      as [|p log] eqn:Hlog.
    { by apply final_Ok_decoded in Hfinal. }
    rewrite last_cons_cons in Hlast.
    assert (s + (packet_size h + 28) ≤ stop) as Hle.
    { eapply (decoded_cursor_ge data _ stop headers).
      rewrite Hlog. by apply last_Some_elem_of. }
    rewrite <-Hlog in *.
    rewrite chunks_loop_eq.
    rewrite (slice_agree data data' (Z.to_nat (stop + 28))) by (done || lia).
    rewrite Hh.
    rewrite (media_chunk_agree data data' (Z.to_nat (stop + 28)))
      by (done || lia).
    rewrite Hm, (proj2 (Z.eqb_neq _ _)) by done.
    rewrite IH; [done|lia|done..].
Qed.

(** C4.  When the packet loop comes to a packet of type 7, it stops
    there: that packet is the last one whose header is decoded, no
    packet before it has type 7, and the generator ends without an
    exception.  What lies behind the header of that packet is never
    looked at: a container with the same bytes up to the end of that
    header gives the same run, and so does the container with any bytes
    appended. *)
Theorem terminal_packet_stops
    (data : bytes) (start : Z) (headers : PacketHeader) :
  (start, headers) ∈ decoded (chunks_generator (Some data)) →
  packet_type headers = 7 →
  (∃ log,
     decoded (chunks_generator (Some data)) = log ++ [(start, headers)] ∧
     Forall (λ p, packet_type p.2 ≠ 7) log) ∧
  final (chunks_generator (Some data)) = Ok () ∧
  (∀ data',
     take (Z.to_nat (start + 28)) data' = take (Z.to_nat (start + 28)) data →
     chunks_generator (Some data') = chunks_generator (Some data)) ∧
  (∀ trailing,
     chunks_generator (Some (data ++ trailing)) = chunks_generator (Some data)).
Proof.
  simpl. intros Hin H7.
  destruct (terminal_packet_last data 0 start headers Hin H7)
    as (log & Hlog & Hnot7 & Hfinal).
  assert (∀ data',
    take (Z.to_nat (start + 28)) data' = take (Z.to_nat (start + 28)) data →
    chunks_loop data' 0 = chunks_loop data 0) as Hprefix.
  { intros data' Heq.
    apply (chunks_loop_prefix data data' start headers); [done| |done..].
    by rewrite Hlog, last_snoc. }
  split_and!; [by eauto|done..|].
  intros trailing. apply Hprefix.
  destruct (decoded_reached data 0 start headers (reached_first data) Hin)
    as [Hr Hh].
  apply cursor_reached_nonneg in Hr.
  apply get_packet_header_Ok in Hh as (Hlen & _).
  rewrite slice_len in Hlen by lia.
  apply take_app_le. unfold len in Hlen. lia.
Qed.

(** The scenario of the specification with three more bytes behind the
    terminal header, which begins at offset 78. *)
Lemma terminal_packet_stops_witness :
  (∃ log,
     decoded (chunks_generator (Some (scenario ++ [x01; x02; x03])))
       = log ++ [(78, {| packet_type := 7; packet_subtype := 0;
                         stream_id := 0; start_time := 0; end_time := 0;
                         packet_size := 0; parameters_size := 0 |})] ∧
     Forall (λ p, packet_type p.2 ≠ 7) log) ∧
  final (chunks_generator (Some (scenario ++ [x01; x02; x03]))) = Ok () ∧
  (∀ data',
     take (Z.to_nat (78 + 28)) data'
       = take (Z.to_nat (78 + 28)) (scenario ++ [x01; x02; x03]) →
     chunks_generator (Some data')
       = chunks_generator (Some (scenario ++ [x01; x02; x03]))) ∧
  (∀ trailing,
     chunks_generator (Some ((scenario ++ [x01; x02; x03]) ++ trailing))
       = chunks_generator (Some (scenario ++ [x01; x02; x03]))).
Proof.
  apply (terminal_packet_stops (scenario ++ [x01; x02; x03]) 78
    {| packet_type := 7; packet_subtype := 0; stream_id := 0;
       start_time := 0; end_time := 0;
       packet_size := 0; parameters_size := 0 |}).
  - vm_compute. apply list_elem_of_further, list_elem_of_here.
  - reflexivity.
Defined.

(** ** Chunks and media packets *)

Lemma media_chunk_Ok data packet_header_end headers emitted :
  media_chunk data packet_header_end headers = Ok emitted →
  if is_media headers then
    ∃ compression raw,
      emitted = [(compression, stream_id headers, raw)] ∧
      raw = slice data (packet_header_end + parameters_size headers)
              (packet_header_end + packet_size headers) ∧
      len raw = packet_size headers - parameters_size headers ∧
      get_compression_type
        (slice data packet_header_end
           (packet_header_end + parameters_size headers)) = Ok compression
  else emitted = [].
Proof.
  unfold media_chunk. destruct (is_media headers); [|by intros [= <-]].
  cbv zeta. intros H.
  apply bind_Ok in H as (raw & Hraw & H).
  apply bind_Ok in H as (compression & Hc & [= <-]).
  exists compression, raw. unfold struct.unpack_s in Hraw.
  case_match; [done|]. apply unpack_sized_Ok in Hraw as [Hlen ->].
  replace (packet_header_end + parameters_size headers + packet_size headers
           - parameters_size headers)
    with (packet_header_end + packet_size headers) in * by lia.
  split_and!; [done..|lia|done].
Qed.

Lemma chunks_loop_media data start :
  final (chunks_loop data start) = Ok () →
  Forall2 (chunk_of_packet data)
    (filter (λ p, is_media p.2) (decoded (chunks_loop data start)))
    (chunks (chunks_loop data start)).
Proof.
  revert start.
  apply (packet_loop_ind data (λ _ run,
    final run = Ok () →
    Forall2 (chunk_of_packet data)
      (filter (λ p, is_media p.2) (decoded run)) (chunks run)));
    simpl; try done.
  - intros s h em _ Hm H7 _.
    rewrite media_chunk_not_media in Hm by by apply is_media_terminal.
    injection Hm as <-. rewrite filter_cons_False; [done|].
    simpl. rewrite is_media_terminal by done. simpl. tauto.
  - intros s h em _ Hm _ IH Hfinal. specialize (IH Hfinal).
    apply media_chunk_Ok in Hm. rewrite filter_cons. simpl.
    destruct (is_media h).
    + destruct Hm as (c & raw & -> & Hraw & Hlen & Hc).
      rewrite decide_True by done. simpl. by apply Forall2_cons.
    + subst em. by rewrite decide_False by naive_solver.
Qed.

(** The log is complete: it holds every cursor the loop comes to
    together with the header decoded there. *)
Lemma decoded_from_reached data start :
  cursor_reached data start →
  ∃ log, decoded (chunks_loop data 0) = log ++ decoded (chunks_loop data start).
Proof.
  induction 1 as [|start h emitted _ [log IH] Hh Hm H7]; [by exists []|].
  exists (log ++ [(start, h)]).
  rewrite IH, (chunks_loop_eq data start), Hh, Hm.
  rewrite (proj2 (Z.eqb_neq _ _)) by done. simpl. by rewrite <-app_assoc.
Qed.

Lemma decoded_first data start headers :
  get_packet_header (slice data start (start + 28)) = Ok headers →
  ∃ log, decoded (chunks_loop data start) = (start, headers) :: log.
Proof.
  intros Hh. rewrite chunks_loop_eq, Hh.
  destruct (media_chunk _ _ _); [|by eexists].
  destruct (_ =? 7); by eexists.
Qed.

Lemma reached_decoded data start headers :
  cursor_reached data start →
  get_packet_header (slice data start (start + 28)) = Ok headers →
  (start, headers) ∈ decoded (chunks_loop data 0).
Proof.
  intros [log Hlog]%decoded_from_reached [rest Hrest]%decoded_first.
  rewrite Hlog, Hrest. apply elem_of_app. right. apply list_elem_of_here.
Qed.

Lemma decoded_back_to_back data start :
  0 ≤ start →
  back_to_back start (decoded (chunks_loop data start)) ∧
  28 * len (decoded (chunks_loop data start)) ≤ Z.max 0 (len data - start).
Proof.
  revert start.
  apply (packet_loop_ind data (λ start run,
    0 ≤ start →
    back_to_back start (decoded run) ∧
    28 * len (decoded run) ≤ Z.max 0 (len data - start)));
    unfold len; simpl.
  - intros. lia.
  - intros s h e Hh _ Hs. apply get_packet_header_Ok in Hh as (Hlen & _).
    rewrite slice_len in Hlen by lia. unfold len in Hlen. lia.
  - intros s h em Hh _ _ Hs. apply get_packet_header_Ok in Hh as (Hlen & _).
    rewrite slice_len in Hlen by lia. unfold len in Hlen. lia.
  - intros s h em Hh _ _ IH Hs.
    apply get_packet_header_Ok in Hh as (Hlen & Hsize & _).
    rewrite slice_len in Hlen by lia. unfold len in Hlen.
    destruct IH as [Hchain Hbound]; [lia|].
    replace (s + 28 + packet_size h) with (s + (packet_size h + 28)) by lia.
    split; [done|]. lia.
Qed.

(** C5.  On a container the generator gets through without an
    exception, the chunks are, in order, one for each packet of the
    container that satisfies the media predicate, and so as many; each
    chunk is taken from its packet as [chunk_of_packet] says.  The
    packets of the container are those the log [decoded] holds: the log
    has exactly the cursors the loop comes to, each with the header
    decoded there, and it has them back to back from offset 0, so each
    once and in the order of the container. *)
Theorem chunks_are_media_packets (data : bytes) :
  final (chunks_generator (Some data)) = Ok () →
  length (chunks (chunks_generator (Some data)))
    = length (filter (λ p, is_media p.2)
                (decoded (chunks_generator (Some data)))) ∧
  Forall2 (chunk_of_packet data)
    (filter (λ p, is_media p.2) (decoded (chunks_generator (Some data))))
    (chunks (chunks_generator (Some data))) ∧
  (∀ start headers,
     (start, headers) ∈ decoded (chunks_generator (Some data)) ↔
     cursor_reached data start ∧
     get_packet_header (slice data start (start + 28)) = Ok headers) ∧
  back_to_back 0 (decoded (chunks_generator (Some data))).
Proof.
  simpl. intros Hfinal.
  pose proof (chunks_loop_media data 0 Hfinal) as Hall.
  split_and!; [by apply Forall2_length in Hall|done| |].
  - intros start headers. split.
    + apply decoded_reached, reached_first.
    + intros [Hr Hh]. by apply reached_decoded.
  - by destruct (decoded_back_to_back data 0).
Qed.

Lemma chunks_are_media_packets_witness :
  length (chunks (chunks_generator (Some scenario)))
    = length (filter (λ p, is_media p.2)
                (decoded (chunks_generator (Some scenario)))) ∧
  Forall2 (chunk_of_packet scenario)
    (filter (λ p, is_media p.2) (decoded (chunks_generator (Some scenario))))
    (chunks (chunks_generator (Some scenario))) ∧
  (∀ start headers,
     (start, headers) ∈ decoded (chunks_generator (Some scenario)) ↔
     cursor_reached scenario start ∧
     get_packet_header (slice scenario start (start + 28)) = Ok headers) ∧
  back_to_back 0 (decoded (chunks_generator (Some scenario))).
Proof.
  apply (chunks_are_media_packets scenario). vm_compute. reflexivity.
Defined.

(** On the scenario the packets are the media packet at offset 0 and
    the terminal packet at offset 78, and the media packet gives the
    one chunk. *)
Example scenario_packets :
  decoded (chunks_generator (Some scenario))
    = [ (0, {| packet_type := 4; packet_subtype := 0; stream_id := 0;
               start_time := 0; end_time := 0;
               packet_size := 50; parameters_size := 22 |});
        (78, {| packet_type := 7; packet_subtype := 0; stream_id := 0;
                start_time := 0; end_time := 0;
                packet_size := 0; parameters_size := 0 |}) ] ∧
  filter (λ p, is_media p.2) (decoded (chunks_generator (Some scenario)))
    = [ (0, {| packet_type := 4; packet_subtype := 0; stream_id := 0;
               start_time := 0; end_time := 0;
               packet_size := 50; parameters_size := 22 |}) ].
Proof. by vm_compute. Qed.

(** The run on the scenario: one chunk of stream 0 with code 3 and the
    28 bytes of payload. *)
Example scenario_run :
  chunks (chunks_generator (Some scenario)) = [(Some 3, 0, replicate 28 xaa)] ∧
  final (chunks_generator (Some scenario)) = Ok ().
Proof. by vm_compute. Qed.

(** ** The compression code of a marker record *)

Lemma unpack_sized_exact {A} size (decode : bytes → A) buf :
  len buf = size → struct.unpack_sized size decode buf = Ok (decode buf).
Proof. intros <-. unfold struct.unpack_sized. by rewrite Z.eqb_refl. Qed.

(** The comparison of the tuple with 0 is false; the second [unpack] of
    [get_data_value] is never run. *)
Lemma get_data_value_eq data data_size :
  get_data_value data data_size
    = struct.unpack_s data_size (slice data 0 data_size) ≫= struct.unpack_b.
Proof. unfold get_data_value. by destruct (struct.unpack_s _ _). Qed.

Lemma get_data_value_Ok data data_size v :
  get_data_value data data_size = Ok v → data_size = 1.
Proof.
  rewrite get_data_value_eq. intros H.
  apply bind_Ok in H as (value & Hvalue & Hb).
  unfold struct.unpack_s in Hvalue. case_match; [done|].
  apply unpack_sized_Ok in Hvalue as [Hlen ->].
  apply unpack_sized_Ok in Hb as [Hone _]. lia.
Qed.

(** C7, as stated, fails for every [data_size] above 1: the value
    unpacked first has [data_size] bytes, and the format ["b"] of the
    last [unpack] takes a buffer of one byte only.  With a payload of 16
    zero bytes and [data_size = 2] the reference behaviour gives 0 and
    [get_data_value] raises. *)
Lemma get_data_value_two_bytes :
  first_byte_signed (replicate 16 x00) 2 = Some 0 ∧
  get_data_value (replicate 16 x00) 2
    = Raise (struct_error (requires_buffer 1)).
Proof. by vm_compute. Qed.

(** C7, amended.  For a payload of 16 bytes, [get_data_value] with
    [data_size = 1] returns the first byte of the payload as a signed
    8-bit integer, and with any other [data_size] it raises a
    [struct.error].  The comparison that guards the second read is false
    for every value, so the result is that of the first [unpack]
    followed by the last. *)
Theorem get_data_value_one_byte (payload : bytes) :
  len payload = 16 →
  (∃ b, head payload = Some b ∧
        get_data_value payload 1
          = Ok (struct.to_signed 8 (Z.of_N (Byte.to_N b))) ∧
        first_byte_signed payload 1
          = Some (struct.to_signed 8 (Z.of_N (Byte.to_N b)))) ∧
  (∀ data_size, data_size ≠ 1 →
     ∃ msg, get_data_value payload data_size = Raise (struct_error msg)) ∧
  (∀ data_value, py_eq (py_tuple [py_bytes data_value]) (py_int 0) = false) ∧
  (∀ data_size,
     get_data_value payload data_size
       = struct.unpack_s data_size (slice payload 0 data_size)
         ≫= struct.unpack_b).
Proof.
  intros Hlen. split_and!.
  - destruct payload as [|b rest]; [done|]. exists b.
    split_and!; [done| |done].
    rewrite get_data_value_eq. unfold slice. rewrite Hlen. simpl.
    rewrite take_0. unfold struct.unpack_b.
    rewrite unpack_sized_exact by done. cbn [struct.le_unsigned].
    by rewrite Z.mul_0_r, Z.add_0_r.
  - intros data_size Hne.
    destruct (get_data_value payload data_size) as [v|e] eqn:Hv.
    + by apply get_data_value_Ok in Hv.
    + eapply struct_errors_only_Raise in Hv as [msg ->];
        [by eauto|apply get_data_value_struct_errors].
  - done.
  - apply get_data_value_eq.
Qed.

(** A payload of sixteen bytes 0xff: the code is -1. *)
Lemma get_data_value_one_byte_witness :
  (∃ b, head (replicate 16 xff) = Some b ∧
        get_data_value (replicate 16 xff) 1
          = Ok (struct.to_signed 8 (Z.of_N (Byte.to_N b))) ∧
        first_byte_signed (replicate 16 xff) 1
          = Some (struct.to_signed 8 (Z.of_N (Byte.to_N b)))) ∧
  (∀ data_size, data_size ≠ 1 →
     ∃ msg, get_data_value (replicate 16 xff) data_size
              = Raise (struct_error msg)) ∧
  (∀ data_value, py_eq (py_tuple [py_bytes data_value]) (py_int 0) = false) ∧
  (∀ data_size,
     get_data_value (replicate 16 xff) data_size
       = struct.unpack_s data_size (slice (replicate 16 xff) 0 data_size)
         ≫= struct.unpack_b).
Proof. apply (get_data_value_one_byte (replicate 16 xff)). reflexivity. Defined.

Example get_data_value_ff : get_data_value (replicate 16 xff) 1 = Ok (-1).
Proof. reflexivity. Qed.

(** ** The scan of a parameter block *)

Lemma scan_complete_record data (k : nat) offsets :
  22 * Z.of_nat k + 22 ≤ len data →
  get_compression_type_from data (0 + 22 * Z.of_nat k :: offsets)
    = if type_id (record_at data k) =? 10
      then Some <$> get_data_value (payload (record_at data k))
                      (data_size (record_at data k))
      else get_compression_type_from data offsets.
Proof.
  intros Hlen. rewrite Z.add_0_l.
  cbn [get_compression_type_from].
  unfold struct.unpack_h, struct.unpack_i, struct.unpack_s.
  rewrite (proj2 (Z.ltb_ge 16 0)) by lia.
  rewrite !unpack_sized_exact by (rewrite slice_len by lia; lia).
  done.
Qed.

Lemma scan_partial_record data (i : Z) offsets :
  0 ≤ i → i < len data < i + 22 →
  get_compression_type_from data (i :: offsets)
    = Raise (partial_record_error (len data - i)).
Proof.
  intros Hi Hlen. cbn [get_compression_type_from].
  unfold struct.unpack_h, struct.unpack_i, struct.unpack_s, partial_record_error.
  rewrite (proj2 (Z.ltb_ge 16 0)) by lia.
  destruct (Z.ltb_spec (len data - i) 2).
  { by rewrite (unpack_sized_Raise 2) by (rewrite slice_len by lia; lia). }
  rewrite (unpack_sized_exact 2) by (rewrite slice_len by lia; lia).
  destruct (Z.ltb_spec (len data - i) 6).
  { by rewrite (unpack_sized_Raise 4) by (rewrite slice_len by lia; lia). }
  rewrite (unpack_sized_exact 4) by (rewrite slice_len by lia; lia).
  by rewrite (unpack_sized_Raise 16) by (rewrite slice_len by lia; lia).
Qed.

Lemma scan_complete_records data (m k : nat) offsets :
  22 * Z.of_nat (k + m) ≤ len data →
  get_compression_type_from data
    (((λ j : nat, 0 + 22 * Z.of_nat j) <$> seq k m) ++ offsets)
    = match find (λ r, type_id r =? 10) (record_at data <$> seq k m) with
      | Some r => Some <$> get_data_value (payload r) (data_size r)
      | None => get_compression_type_from data offsets
      end.
Proof.
  revert k. induction m as [|m IH]; intros k Hlen; [done|].
  cbn [seq fmap list_fmap app find].
  rewrite scan_complete_record by lia.
  destruct (type_id (record_at data k) =? 10); [done|].
  apply IH. lia.
Qed.

(** C6, as stated, fails: a partial record at the end of the block is
    read like any other, and the field that does not get all its bytes
    makes [struct.unpack] raise.  The block below is one complete record
    of type 0 and one more byte; the specification's scan returns
    unknown, [get_compression_type] raises. *)
Lemma partial_record_raises :
  scan_spec (replicate 23 x00) = Ok None ∧
  get_compression_type (replicate 23 x00)
    = Raise (struct_error (requires_buffer 2)).
Proof. by vm_compute. Qed.

(** C6, amended.  [get_compression_type] returns the result of
    [get_data_value] for the first complete 22-byte record of type 10,
    whatever follows it; when no complete record has type 10 it returns
    [None] if the block is a whole number of records, and otherwise
    raises the [struct.error] of the partial record at the end. *)
Theorem get_compression_type_scan (data : bytes) :
  get_compression_type data
    = match find (λ r, type_id r =? 10) (complete_records data) with
      | Some r => Some <$> get_data_value (payload r) (data_size r)
      | None =>
          if len data mod 22 =? 0 then Ok None
          else Raise (partial_record_error (len data mod 22))
      end.
Proof.
  pose proof (len_nonneg data) as Hnonneg.
  unfold get_compression_type, complete_records, py_range.
  set (n := Z.to_nat (len data / 22)).
  assert (Z.of_nat n = len data / 22) as Hn
    by (unfold n; Z.div_mod_to_equations; lia).
  destruct (Z.eqb_spec (len data mod 22) 0) as [Hmod|Hmod].
  - replace (Z.to_nat ((len data - 0 + 22 - 1) / 22)) with n
      by (Z.div_mod_to_equations; lia).
    rewrite <-(app_nil_r (_ <$> seq 0 n)).
    rewrite scan_complete_records by (Z.div_mod_to_equations; lia). done.
  - replace (Z.to_nat ((len data - 0 + 22 - 1) / 22)) with (S n)
      by (Z.div_mod_to_equations; lia).
    rewrite seq_S, fmap_app. cbn [fmap list_fmap].
    rewrite scan_complete_records by (Z.div_mod_to_equations; lia).
    destruct (find _ _); [done|].
    rewrite scan_partial_record by (Z.div_mod_to_equations; lia).
    f_equal. f_equal. Z.div_mod_to_equations; lia.
Qed.

(** ** Accumulation *)

Lemma stream_bytes_cons id (c : Chunk) cs :
  stream_bytes id (c :: cs)
    = (if decide (c.1.2 = id) then c.2 else []) ++ stream_bytes id cs.
Proof. unfold stream_bytes. rewrite filter_cons. by case_decide. Qed.

Lemma accumulate_buffers st cs b0 b1 :
  audio_chunks st = [(0, b0); (1, b1)] →
  audio_chunks (foldl accumulate st cs)
    = [(0, b0 ++ stream_bytes 0 cs); (1, b1 ++ stream_bytes 1 cs)].
Proof.
  revert st b0 b1. induction cs as [|[[c id] raw] cs IH]; intros st b0 b1 Hst.
  { cbn [foldl]. rewrite Hst. unfold stream_bytes. cbn.
    by rewrite !app_nil_r. }
  rewrite !stream_bytes_cons. cbn [foldl fst snd].
  destruct (decide (id = 0)) as [->|H0]; [|destruct (decide (id = 1)) as [->|H1]].
  - rewrite (IH _ (b0 ++ raw) b1); [by rewrite <-app_assoc|].
    by unfold accumulate; rewrite Hst.
  - rewrite (IH _ b0 (b1 ++ raw)); [by rewrite <-app_assoc|].
    by unfold accumulate; rewrite Hst.
  - rewrite (IH _ b0 b1); [done|].
    unfold accumulate, dict_contains. rewrite Hst.
    rewrite bool_decide_eq_false_2; [done|]. simpl.
    rewrite !not_elem_of_cons. split_and!; [done..|apply not_elem_of_nil].
Qed.

Lemma accumulate_compression st cs :
  compression (foldl accumulate st cs)
    = match last cs with
      | None => compression st
      | Some (c, _, _) => Some c
      end.
Proof.
  induction cs as [|[[c id] raw] cs _] using rev_ind; [done|].
  by rewrite foldl_snoc, last_snoc.
Qed.

(** The two loops of [convert_to_mp3] on a chunk sequence: every
    encoder gets the format of one and the same compression, that of
    the last chunk. *)
Lemma convert_chunks_eq cs :
  convert_chunks cs
    = format ← select_format
                 (match last cs with
                  | None => None
                  | Some (c, _, _) => Some c
                  end);
      mret [ {| input_format := format; stdin := stream_bytes 0 cs;
                output := "temp_caller.mp3" |};
             {| input_format := format; stdin := stream_bytes 1 cs;
                output := "temp_receiver.mp3" |} ].
Proof.
  unfold convert_chunks, encode_streams.
  rewrite (accumulate_buffers initial_locals cs [] []) by done.
  rewrite accumulate_compression. simpl.
  by destruct (select_format _).
Qed.

Lemma stream_bytes_retained id cs :
  id ∈ [0; 1] →
  stream_bytes id (filter (λ c : Chunk, c.1.2 ∈ [0; 1]) cs)
    = stream_bytes id cs.
Proof.
  intros Hid. unfold stream_bytes. rewrite list_filter_filter.
  do 2 f_equal. apply list_filter_iff. intros c.
  split; [by intros [? _]|by intros ->].
Qed.

(** C9.  After the first loop the buffer of stream 0 is the
    concatenation, in order, of the bytes of the chunks with stream id
    0, and likewise for stream 1; the chunks of all other streams can
    be left out of the sequence without changing either buffer. *)
Theorem buffers_hold_own_chunks (cs : list Chunk) :
  audio_chunks (foldl accumulate initial_locals cs)
    = [(0, stream_bytes 0 cs); (1, stream_bytes 1 cs)] ∧
  audio_chunks (foldl accumulate initial_locals cs)
    = audio_chunks
        (foldl accumulate initial_locals
           (filter (λ c : Chunk, c.1.2 ∈ [0; 1]) cs)).
Proof.
  rewrite !(accumulate_buffers initial_locals _ [] []) by done. simpl.
  split; [done|].
  rewrite !stream_bytes_retained; [done|..].
  - apply list_elem_of_further, list_elem_of_here.
  - apply list_elem_of_here.
Qed.

Example buffers_of_three_streams :
  audio_chunks
    (foldl accumulate initial_locals
       [(None, 0, [x01]); (Some 3, 2, [x02]); (None, 1, [x03]);
        (None, 0, [x04])])
    = [(0, [x01; x04]); (1, [x03])].
Proof. reflexivity. Qed.

(** ** The format handed to the encoders *)

(** C8, as stated, fails: [convert_to_mp3] keeps no code per stream.
    Below, stream 0 has one chunk of code 3 (alaw) and stream 1 then one
    chunk of unknown compression; both encoders are started with g729,
    the format of the chunk that came last. *)
Lemma format_is_not_per_stream :
  codec_spec 0 [(Some 3, 0, [x01]); (None, 1, [x02])] = Ok "alaw"%string ∧
  convert_chunks [(Some 3, 0, [x01]); (None, 1, [x02])]
    = Ok [ {| input_format := "g729"; stdin := [x01];
              output := "temp_caller.mp3" |};
           {| input_format := "g729"; stdin := [x02];
              output := "temp_receiver.mp3" |} ].
Proof. by vm_compute. Qed.

(** C8, amended.  For a chunk sequence that is not empty, both encoders
    are started with the format of the compression of the last chunk,
    whatever the stream of that chunk: the format the table gives for
    its code, and the format of code 0, g729, when its compression is
    unknown. *)
Theorem format_of_last_chunk
    (cs : list Chunk) (code : option Z) (id : Z) (raw : bytes)
    (format : string) :
  formats !! default 0 code = Some format →
  convert_chunks (cs ++ [(code, id, raw)])
    = Ok [ {| input_format := format;
              stdin := stream_bytes 0 (cs ++ [(code, id, raw)]);
              output := "temp_caller.mp3" |};
           {| input_format := format;
              stdin := stream_bytes 1 (cs ++ [(code, id, raw)]);
              output := "temp_receiver.mp3" |} ] ∧
  (code = None → format = "g729"%string).
Proof.
  intros Hformat. split.
  - rewrite convert_chunks_eq, last_snoc.
    assert (select_format (Some code) = Ok format) as ->; [|done].
    unfold select_format, formats_getitem.
    destruct code as [k|]; simpl in Hformat; by rewrite Hformat.
  - intros ->. simpl in Hformat. by vm_compute in Hformat; injection Hformat.
Qed.

Lemma format_of_last_chunk_witness :
  convert_chunks ([(Some 3, 0, [x01])] ++ [(Some 7, 5, [x02])])
    = Ok [ {| input_format := "mulaw";
              stdin := stream_bytes 0 ([(Some 3, 0, [x01])] ++ [(Some 7, 5, [x02])]);
              output := "temp_caller.mp3" |};
           {| input_format := "mulaw";
              stdin := stream_bytes 1 ([(Some 3, 0, [x01])] ++ [(Some 7, 5, [x02])]);
              output := "temp_receiver.mp3" |} ] ∧
  (Some 7 = None → "mulaw"%string = "g729"%string).
Proof.
  apply (format_of_last_chunk [(Some 3, 0, [x01])] (Some 7) 5 [x02] "mulaw").
  vm_compute. reflexivity.
Defined.

(** C10.  On a container the generator gets through without yielding a
    chunk, the first loop of [convert_to_mp3] never binds [compression],
    and the selection of the format in the second loop raises
    [UnboundLocalError] when it reads the variable: no encoder is
    started, and the g729 default is not reached.  The default is what
    both encoders get when chunks were yielded and the compression of
    the last one is unknown; a known code selects its format in the
    table. *)
Theorem format_selection_needs_a_chunk (data : bytes) :
  final (chunks_generator (Some data)) = Ok () →
  convert_to_mp3 (Some data)
    = match last (chunks (chunks_generator (Some data))) with
      | None => Raise (UnboundLocalError "compression")
      | Some (code, _, _) =>
          format ← match code with
                   | None => Ok "g729"%string
                   | Some k => formats_getitem k
                   end;
          mret [ {| input_format := format;
                    stdin := stream_bytes 0 (chunks (chunks_generator (Some data)));
                    output := "temp_caller.mp3" |};
                 {| input_format := format;
                    stdin := stream_bytes 1 (chunks (chunks_generator (Some data)));
                    output := "temp_receiver.mp3" |} ]
      end.
Proof.
  intros Hfinal. unfold convert_to_mp3. rewrite Hfinal. simpl.
  rewrite convert_chunks_eq.
  destruct (last _) as [[[[k|] id] raw]|]; done.
Qed.

(** A container that is one terminal header: no chunk, and
    [convert_to_mp3] raises [UnboundLocalError]. *)
Lemma format_selection_needs_a_chunk_witness :
  convert_to_mp3 (Some (header_bytes 7 0 0 0 0))
    = Raise (UnboundLocalError "compression").
Proof.
  apply (format_selection_needs_a_chunk (header_bytes 7 0 0 0 0)).
  vm_compute. reflexivity.
Defined.

(** A media packet without parameters and then the terminal header: one
    chunk of unknown compression, and g729 for both encoders. *)
Example unknown_compression_defaults :
  convert_to_mp3
    (Some (header_bytes 4 0 1 2 0 ++ [x0a; x0b] ++ header_bytes 7 0 0 0 0))
    = Ok [ {| input_format := "g729"; stdin := [];
              output := "temp_caller.mp3" |};
           {| input_format := "g729"; stdin := [x0a; x0b];
              output := "temp_receiver.mp3" |} ].
Proof. by vm_compute. Qed.

(** The whole of [convert_to_mp3] on the scenario of the specification. *)
Example scenario_converted :
  convert_to_mp3 (Some scenario)
    = Ok [ {| input_format := "alaw"; stdin := replicate 28 xaa;
              output := "temp_caller.mp3" |};
           {| input_format := "alaw"; stdin := [];
              output := "temp_receiver.mp3" |} ].
Proof. by vm_compute. Qed.

(** * Further properties of the script *)

(** ** Integers and bytes *)

Lemma le_unsigned_bound bs :
  0 ≤ struct.le_unsigned bs < 256 ^ len bs.
Proof.
  induction bs as [|b bs IH]; [done|].
  unfold len in *. rewrite length_cons, Nat2Z.inj_succ, Z.pow_succ_r by lia.
  cbn [struct.le_unsigned].
  pose proof (Byte.to_N_bounded b). lia.
Qed.

Lemma to_signed_range bits u :
  0 < bits → 0 ≤ u < 2 ^ bits →
  - 2 ^ (bits - 1) ≤ struct.to_signed bits u < 2 ^ (bits - 1).
Proof.
  intros Hbits Hu. unfold struct.to_signed.
  replace (2 ^ bits) with (2 * 2 ^ (bits - 1)) in *
    by (rewrite <-Z.pow_succ_r by lia; f_equal; lia).
  destruct (Z.ltb_spec u (2 ^ (bits - 1))); lia.
Qed.

Lemma to_signed_mod bits z :
  0 < bits → - 2 ^ (bits - 1) ≤ z < 2 ^ (bits - 1) →
  struct.to_signed bits (z mod 2 ^ bits) = z.
Proof.
  intros Hbits Hz. unfold struct.to_signed.
  assert (2 ^ bits = 2 * 2 ^ (bits - 1)) as Hpow
    by (rewrite <-Z.pow_succ_r by lia; f_equal; lia).
  destruct (Z.lt_ge_cases z 0).
  - rewrite <-(Z.mod_add z 1), Z.mod_small by lia.
    destruct (Z.ltb_spec (z + 1 * 2 ^ bits) (2 ^ (bits - 1))); lia.
  - rewrite Z.mod_small by lia.
    destruct (Z.ltb_spec z (2 ^ (bits - 1))); lia.
Qed.

Lemma to_N_byte_of z : Z.of_N (Byte.to_N (byte_of z)) = z mod 256.
Proof.
  pose proof (Z.mod_pos_bound z 256 eq_refl) as Hmod.
  unfold byte_of. destruct (Byte.of_N _) as [b|] eqn:Hb; simpl.
  - apply Byte.to_of_N in Hb. rewrite Hb. lia.
  - apply Byte.of_N_None_iff in Hb. lia.
Qed.

Lemma le_bytes_length n z : length (le_bytes n z) = n.
Proof. revert z. induction n as [|n IH]; intros z; simpl; by f_equal. Qed.

(** Reading back the [n] bytes of [z] gives [z] modulo [256 ^ n]. *)
Lemma le_unsigned_le_bytes n z :
  struct.le_unsigned (le_bytes n z) = z mod 256 ^ Z.of_nat n.
Proof.
  revert z. induction n as [|n IH]; intros z.
  { simpl. by rewrite Z.mod_1_r. }
  cbn [le_bytes struct.le_unsigned].
  rewrite IH, to_N_byte_of, Nat2Z.inj_succ, Z.pow_succ_r by lia.
  rewrite Z.rem_mul_r by lia. done.
Qed.

(** ** Decoding a packet header *)

(** The fields of a header, by their offsets in the buffer. *)
Lemma get_packet_header_fields data :
  28 ≤ len data →
  get_packet_header data
    = Ok {| packet_type :=
              struct.to_signed 8 (struct.le_unsigned (slice data 0 1));
            packet_subtype :=
              struct.to_signed 16 (struct.le_unsigned (slice data 1 3));
            stream_id :=
              struct.to_signed 8 (struct.le_unsigned (slice data 3 4));
            start_time := struct.le_unsigned (slice data 4 12);
            end_time := struct.le_unsigned (slice data 12 20);
            packet_size := struct.le_unsigned (slice data 20 24);
            parameters_size := struct.le_unsigned (slice data 24 28) |}.
Proof.
  intros Hlen.
  unfold get_packet_header, struct.unpack_b, struct.unpack_h, struct.unpack_d,
    struct.unpack_I.
  by rewrite !unpack_sized_exact by (rewrite slice_len by lia; lia).
Qed.

(** [get_packet_header] returns a header exactly for the buffers of at
    least 28 bytes; a shorter buffer makes it raise.  (The packet loop
    hands it a slice of at most 28 bytes.) *)
Theorem header_decoded_iff (data : bytes) :
  (∃ headers, get_packet_header data = Ok headers) ↔ 28 ≤ len data.
Proof.
  split.
  - intros [h Hh]. by apply get_packet_header_Ok in Hh as [? _].
  - intros Hlen. eexists. by apply get_packet_header_fields.
Qed.

(** Whatever the bytes, the fields of a decoded header are within the
    ranges of their formats: signed 8 bits for the type and the stream
    id, signed 16 bits for the subtype, unsigned 32 bits for the two
    sizes. *)
Theorem header_fields_in_range (data : bytes) (headers : PacketHeader) :
  get_packet_header data = Ok headers → header_in_range headers.
Proof.
  intros Hh. pose proof (get_packet_header_Ok _ _ Hh) as (Hlen & _).
  rewrite get_packet_header_fields in Hh by done. injection Hh as <-.
  assert (∀ lo hi, 0 ≤ lo ≤ hi → hi ≤ 28 →
    0 ≤ struct.le_unsigned (slice data lo hi) < 256 ^ (hi - lo)) as Hb.
  { intros lo hi Hlo Hhi. pose proof (le_unsigned_bound (slice data lo hi)) as H.
    rewrite slice_len in H by lia. by rewrite Z.max_r, !Z.min_l in H by lia. }
  pose proof (Hb 0 1 ltac:(lia) ltac:(lia)) as H1.
  pose proof (Hb 1 3 ltac:(lia) ltac:(lia)) as H2.
  pose proof (Hb 3 4 ltac:(lia) ltac:(lia)) as H3.
  pose proof (Hb 4 12 ltac:(lia) ltac:(lia)) as H4.
  pose proof (Hb 12 20 ltac:(lia) ltac:(lia)) as H5.
  pose proof (Hb 20 24 ltac:(lia) ltac:(lia)) as H6.
  pose proof (Hb 24 28 ltac:(lia) ltac:(lia)) as H7.
  pose proof (to_signed_range 8 (struct.le_unsigned (slice data 0 1))) as S1.
  pose proof (to_signed_range 16 (struct.le_unsigned (slice data 1 3))) as S2.
  pose proof (to_signed_range 8 (struct.le_unsigned (slice data 3 4))) as S3.
  unfold header_in_range. cbn [packet_type packet_subtype stream_id start_time
    end_time packet_size parameters_size].
  change (1 - 0) with 1 in *. change (3 - 1) with 2 in *.
  change (4 - 3) with 1 in *. change (12 - 4) with 8 in *.
  change (20 - 12) with 8 in *. change (24 - 20) with 4 in *.
  change (28 - 24) with 4 in *.
  change (8 - 1) with 7 in *. change (16 - 1) with 15 in *.
  lia.
Qed.

Lemma header_fields_in_range_witness : header_in_range
  {| packet_type := 7; packet_subtype := 0; stream_id := 0;
     start_time := 0; end_time := 0; packet_size := 0; parameters_size := 0 |}.
Proof.
  apply (header_fields_in_range (header_bytes 7 0 0 0 0)).
  vm_compute. reflexivity.
Defined.

Lemma get_packet_header_pack headers :
  header_in_range headers →
  get_packet_header (pack_header headers) = Ok headers.
Proof.
  intros (Htype & Hsub & Hid & Hstart & Hend & Hsize & Hparams).
  rewrite get_packet_header_fields by done.
  change (slice (pack_header headers) 0 1)
    with (le_bytes 1 (packet_type headers)).
  change (slice (pack_header headers) 1 3)
    with (le_bytes 2 (packet_subtype headers)).
  change (slice (pack_header headers) 3 4)
    with (le_bytes 1 (stream_id headers)).
  change (slice (pack_header headers) 4 12)
    with (le_bytes 8 (start_time headers)).
  change (slice (pack_header headers) 12 20)
    with (le_bytes 8 (end_time headers)).
  change (slice (pack_header headers) 20 24)
    with (le_bytes 4 (packet_size headers)).
  change (slice (pack_header headers) 24 28)
    with (le_bytes 4 (parameters_size headers)).
  rewrite !le_unsigned_le_bytes.
  change (256 ^ Z.of_nat 1) with (2 ^ 8).
  change (256 ^ Z.of_nat 2) with (2 ^ 16).
  change (256 ^ Z.of_nat 4) with (2 ^ 32).
  change (256 ^ Z.of_nat 8) with (2 ^ 64).
  rewrite !to_signed_mod, !Z.mod_small by (done || lia).
  by destruct headers.
Qed.

(** Decoding inverts the layout: the 28 bytes that hold the fields of a
    header within the ranges decode to that header, negative types,
    subtypes and stream ids included. *)
Theorem header_round_trip (headers : PacketHeader) :
  header_in_range headers →
  get_packet_header (pack_header headers) = Ok headers.
Proof.
  intros (Htype & Hsub & Hid & Hstart & Hend & Hsizes).
  apply get_packet_header_pack. unfold header_in_range.
  do 5 (split; [done|]). done.
Qed.

(** A header of type -1 for stream -2 with the largest sizes. *)
Lemma header_round_trip_witness :
  get_packet_header
    (pack_header
       {| packet_type := -1; packet_subtype := -300; stream_id := -2;
          start_time := 1; end_time := 2;
          packet_size := 4294967295; parameters_size := 4294967295 |})
    = Ok {| packet_type := -1; packet_subtype := -300; stream_id := -2;
            start_time := 1; end_time := 2;
            packet_size := 4294967295; parameters_size := 4294967295 |}.
Proof.
  apply (header_round_trip
    {| packet_type := -1; packet_subtype := -300; stream_id := -2;
       start_time := 1; end_time := 2;
       packet_size := 4294967295; parameters_size := 4294967295 |}).
  unfold header_in_range. simpl. lia.
Defined.

(** Packing a decoded header gives back the bytes it was decoded from. *)
Lemma byte_of_to_N b : byte_of (Z.of_N (Byte.to_N b)) = b.
Proof.
  pose proof (Byte.to_N_bounded b). unfold byte_of.
  rewrite Z.mod_small, N2Z.id, Byte.of_to_N by lia. done.
Qed.

Lemma byte_of_add z k : byte_of (z + k * 256) = byte_of z.
Proof. unfold byte_of. by rewrite Z.mod_add. Qed.

Lemma le_bytes_add n z k : le_bytes n (z + k * 256 ^ Z.of_nat n) = le_bytes n z.
Proof.
  revert z k. induction n as [|n IH]; intros z k; [done|].
  rewrite Nat2Z.inj_succ, Z.pow_succ_r by lia. cbn [le_bytes].
  replace (z + k * (256 * 256 ^ Z.of_nat n))
    with (z + k * 256 ^ Z.of_nat n * 256) by lia.
  by rewrite byte_of_add, Z.div_add, IH.
Qed.

Lemma le_bytes_le_unsigned bs :
  le_bytes (length bs) (struct.le_unsigned bs) = bs.
Proof.
  induction bs as [|b bs IH]; [done|].
  cbn [length le_bytes struct.le_unsigned].
  pose proof (Byte.to_N_bounded b).
  rewrite (Z.mul_comm 256), byte_of_add, byte_of_to_N.
  rewrite Z.div_add, Z.div_small, Z.add_0_l, IH by lia. done.
Qed.

Lemma le_bytes_to_signed n bs :
  length bs = n →
  le_bytes n (struct.to_signed (8 * Z.of_nat n) (struct.le_unsigned bs)) = bs.
Proof.
  intros <-. unfold struct.to_signed. case_match.
  - apply le_bytes_le_unsigned.
  - replace (2 ^ (8 * Z.of_nat (length bs)))
      with (256 ^ Z.of_nat (length bs))
      by (rewrite Z.pow_mul_r by lia; done).
    replace (struct.le_unsigned bs - 256 ^ Z.of_nat (length bs))
      with (struct.le_unsigned bs + (-1) * 256 ^ Z.of_nat (length bs)) by lia.
    rewrite le_bytes_add. apply le_bytes_le_unsigned.
Qed.

Lemma slice_app_adjacent {A} (data : list A) (a b c : Z) :
  0 ≤ a ≤ b → b ≤ c →
  slice data a b ++ slice data b c = slice data a c.
Proof.
  intros Hab Hbc. unfold slice, py_index.
  rewrite !(proj2 (Z.ltb_ge _ _)) by lia.
  set (a' := Z.min a (len data)). set (b' := Z.min b (len data)).
  set (c' := Z.min c (len data)).
  replace (Z.to_nat b') with (Z.to_nat a' + Z.to_nat (b' - a'))%nat by lia.
  rewrite <-drop_drop, take_take_drop. f_equal. lia.
Qed.

(** Decoding loses nothing: the decoded header, packed again, is the
    first 28 bytes of the buffer.  Two buffers decode to the same header
    only if they agree on their first 28 bytes. *)
Theorem header_decoding_is_lossless (data : bytes) (headers : PacketHeader) :
  get_packet_header data = Ok headers →
  pack_header headers = take 28 data.
Proof.
  intros Hh. pose proof (get_packet_header_Ok _ _ Hh) as (Hlen & _).
  rewrite get_packet_header_fields in Hh by done. injection Hh as <-.
  assert (∀ lo hi, 0 ≤ lo ≤ hi → hi ≤ 28 →
    length (slice data lo hi) = Z.to_nat (hi - lo)) as Hslice.
  { intros lo hi Hlo Hhi. pose proof (slice_len data lo hi) as H.
    unfold len in H at 1. lia. }
  unfold pack_header. cbn [packet_type packet_subtype stream_id start_time
    end_time packet_size parameters_size].
  rewrite (le_bytes_to_signed 1), (le_bytes_to_signed 2),
    (le_bytes_to_signed 1) by (rewrite Hslice by lia; done).
  rewrite <-(Hslice 4 12), <-(Hslice 12 20) at 1 by lia.
  rewrite <-(Hslice 20 24), <-(Hslice 24 28) at 1 by lia.
  rewrite !le_bytes_le_unsigned.
  rewrite !slice_app_adjacent by lia.
  unfold slice, py_index. rewrite Z.min_l by lia.
  change (28 <? 0) with false. change (0 <? 0) with false. cbv iota.
  pose proof (len_nonneg data). rewrite Z.min_l by lia. done.
Qed.

Lemma header_decoding_is_lossless_witness :
  pack_header
    {| packet_type := 7; packet_subtype := 0; stream_id := 0;
       start_time := 0; end_time := 0; packet_size := 0; parameters_size := 0 |}
    = take 28 (header_bytes 7 0 0 0 0 ++ [x01; x02]).
Proof.
  apply (header_decoding_is_lossless (header_bytes 7 0 0 0 0 ++ [x01; x02])).
  vm_compute. reflexivity.
Defined.

(** ** Runs of the generator *)

(** On a file that can be read, the only exceptions the generator lets
    escape are [struct.error]s. *)
Theorem generator_raises_struct_errors (data : bytes) (e : exn) :
  final (chunks_generator (Some data)) = Raise e →
  ∃ msg, e = struct_error msg.
Proof.
  simpl. intros He.
  by eapply struct_errors_only_Raise, He; apply chunks_loop_struct_errors.
Qed.

Lemma generator_raises_struct_errors_witness :
  ∃ msg, struct_error (requires_buffer 1) = struct_error msg.
Proof.
  apply (generator_raises_struct_errors []). vm_compute. reflexivity.
Defined.

Lemma final_Ok_terminal data start :
  final (chunks_loop data start) = Ok () →
  ∃ stop headers,
    (stop, headers) ∈ decoded (chunks_loop data start) ∧
    packet_type headers = 7.
Proof.
  revert start.
  apply (packet_loop_ind data (λ _ run,
    final run = Ok () →
    ∃ stop headers, (stop, headers) ∈ decoded run ∧ packet_type headers = 7));
    simpl; try done.
  - intros s h em _ _ H7 _. exists s, h. split; [apply list_elem_of_here|done].
  - intros s h em _ _ _ IH Hfinal.
    destruct (IH Hfinal) as (stop & h' & Hin & H7).
    exists stop, h'. split; [by apply list_elem_of_further|done].
Qed.

(** The generator ends without an exception exactly when the packet
    loop comes to a packet of type 7; on a container without one that
    can be come to, it raises. *)
Theorem generator_ends_iff_terminal (data : bytes) :
  final (chunks_generator (Some data)) = Ok () ↔
  ∃ stop headers,
    (stop, headers) ∈ decoded (chunks_generator (Some data)) ∧
    packet_type headers = 7.
Proof.
  simpl. split.
  - apply final_Ok_terminal.
  - intros (stop & h & Hin & H7).
    by destruct (terminal_packet_last data 0 stop h Hin H7) as (? & _ & _ & ?).
Qed.

(** The packets the loop decodes lie back to back from offset 0, and
    each takes at least the 28 bytes of its header: a run decodes at
    most one header per 28 bytes of the container. *)
Theorem packets_back_to_back (data : bytes) :
  back_to_back 0 (decoded (chunks_generator (Some data))) ∧
  28 * len (decoded (chunks_generator (Some data))) ≤ len data.
Proof.
  destruct (decoded_back_to_back data 0) as [Hchain Hbound]; [done|].
  pose proof (len_nonneg data). split; [done|]. simpl. lia.
Qed.

Lemma payload_bytes_app cs1 cs2 :
  payload_bytes (cs1 ++ cs2) = payload_bytes cs1 + payload_bytes cs2.
Proof.
  unfold payload_bytes, len.
  rewrite fmap_app, join_app, length_app. lia.
Qed.

Lemma chunks_loop_payload data start :
  0 ≤ start →
  payload_bytes (chunks (chunks_loop data start)) ≤ Z.max 0 (len data - start).
Proof.
  revert start.
  apply (packet_loop_ind data (λ start run,
    0 ≤ start → payload_bytes (chunks run) ≤ Z.max 0 (len data - start)));
    simpl.
  - intros. unfold payload_bytes, len. simpl. lia.
  - intros. unfold payload_bytes, len. simpl. lia.
  - intros s h em _ Hm H7 _.
    rewrite media_chunk_not_media in Hm by by apply is_media_terminal.
    injection Hm as <-. unfold payload_bytes, len. simpl. lia.
  - intros s h em Hh Hm _ IH Hs.
    apply get_packet_header_Ok in Hh as (Hlen & Hsize & Hparams).
    rewrite slice_len in Hlen by lia.
    rewrite payload_bytes_app. specialize (IH ltac:(lia)).
    apply media_chunk_Ok in Hm. destruct (is_media h).
    + destruct Hm as (c & raw & -> & Hraw & Hrawlen & _).
      assert (payload_bytes [(c, stream_id h, raw)] = len raw) as ->.
      { unfold payload_bytes. simpl. by rewrite app_nil_r. }
      pose proof Hrawlen as Hinside.
      rewrite Hraw in Hinside at 1. rewrite slice_len in Hinside by lia.
      lia.
    + subst em. unfold payload_bytes at 1. unfold len at 1. simpl. lia.
Qed.

(** The chunks of a run are disjoint pieces of the container: together
    they carry no more bytes than the container has, whether the run
    ends at a terminal packet or in an exception. *)
Theorem yielded_bytes_bounded (data : bytes) :
  payload_bytes (chunks (chunks_generator (Some data))) ≤ len data.
Proof.
  pose proof (chunks_loop_payload data 0 ltac:(done)) as H.
  pose proof (len_nonneg data). simpl. lia.
Qed.

(** ** Codes and stream ids *)

Lemma get_data_value_range data data_size v :
  get_data_value data data_size = Ok v → -128 ≤ v < 128.
Proof.
  rewrite get_data_value_eq. intros H.
  apply bind_Ok in H as (value & _ & Hb).
  apply unpack_sized_Ok in Hb as [Hone ->].
  pose proof (le_unsigned_bound value) as Hbound. rewrite Hone in Hbound.
  exact (to_signed_range 8 _ eq_refl Hbound).
Qed.

Lemma get_compression_type_range data code :
  get_compression_type data = Ok (Some code) → -128 ≤ code < 128.
Proof.
  unfold get_compression_type.
  induction (py_range 0 (len data) 22) as [|i offsets IH]; [done|].
  cbn [get_compression_type_from]. intros H.
  apply bind_Ok in H as (type_id & _ & H).
  apply bind_Ok in H as (data_size & _ & H).
  apply bind_Ok in H as (temp & _ & H).
  destruct (type_id =? 10); [|by apply IH].
  destruct (get_data_value temp data_size) as [v|] eqn:Hv; [|done].
  injection H as <-. by eapply get_data_value_range.
Qed.

Lemma get_packet_header_stream_id data headers :
  get_packet_header data = Ok headers → -128 ≤ stream_id headers < 128.
Proof.
  intros Hh. pose proof (get_packet_header_Ok _ _ Hh) as (Hlen & _).
  rewrite get_packet_header_fields in Hh by done. injection Hh as <-.
  cbn [stream_id].
  pose proof (le_unsigned_bound (slice data 3 4)) as Hb.
  rewrite slice_len in Hb by lia.
  rewrite Z.max_r, !Z.min_l in Hb by lia.
  exact (to_signed_range 8 _ eq_refl Hb).
Qed.

Lemma chunks_loop_in_range data start :
  Forall chunk_in_range (chunks (chunks_loop data start)).
Proof.
  revert start.
  apply (packet_loop_ind data (λ _ run, Forall chunk_in_range (chunks run)));
    simpl; try done.
  - intros s h em _ Hm H7.
    rewrite media_chunk_not_media in Hm by by apply is_media_terminal.
    by injection Hm as <-.
  - intros s h em Hh Hm _ IH. apply Forall_app. split; [|done].
    apply get_packet_header_stream_id in Hh as Hid.
    apply media_chunk_Ok in Hm. destruct (is_media h); [|by subst em].
    destruct Hm as (c & raw & -> & _ & _ & Hc).
    apply Forall_singleton. split; [done|]. simpl.
    destruct c as [code|]; [|done]. by eapply get_compression_type_range.
Qed.

(** Every chunk the generator yields has a stream id between -128 and
    127, and its compression is [None] or a code between -128 and
    127: both come out of the format ["b"]. *)
Theorem chunks_in_range (file : option bytes) :
  Forall chunk_in_range (chunks (chunks_generator file)).
Proof.
  destruct file as [data|]; [apply chunks_loop_in_range|by constructor].
Qed.

(** ** The table of formats *)

Lemma formats_None (key : Z) :
  formats !! key = None ↔ key ∉ [0; 1; 2; 3; 7; 8; 9; 10; 19].
Proof. unfold formats. by rewrite <-not_elem_of_list_to_map. Qed.

Lemma formats_Some (key : Z) (format : string) :
  formats !! key = Some format → format ∈ codecs.
Proof.
  unfold formats, codecs. intros H%elem_of_list_to_map_2.
  repeat (apply elem_of_cons in H as [[= _ <-]|H];
          [repeat (first [apply list_elem_of_here|apply list_elem_of_further])|]).
  by apply elem_of_nil in H.
Qed.

Lemma select_format_Ok v format :
  select_format v = Ok format → format ∈ codecs.
Proof.
  unfold select_format, formats_getitem.
  destruct v as [[k|]|]; [| |done];
    (destruct (formats !! _) eqn:Hf; [|done]);
    intros [= <-]; by eapply formats_Some.
Qed.

Lemma select_format_Raise v e :
  select_format v = Raise e →
  (v = None ∧ e = UnboundLocalError "compression") ∨
  (∃ key, v = Some (Some key) ∧ e = KeyError key ∧ formats !! key = None).
Proof.
  unfold select_format, formats_getitem.
  destruct v as [[k|]|]; [| |by intros [= <-]; left].
  - destruct (formats !! k) eqn:Hf; [done|]. intros [= <-]. right. by exists k.
  - done.
Qed.

(** A code that is no key of [formats] in the last chunk makes the
    selection of the format raise [KeyError]: no encoder is started,
    whatever the buffers hold.  The keys are 0, 1, 2, 3, 7, 8, 9, 10 and
    19; a marker record can carry any code from -128 to 127. *)
Theorem unknown_code_raises_KeyError
    (cs : list Chunk) (key id : Z) (raw : bytes) :
  key ∉ [0; 1; 2; 3; 7; 8; 9; 10; 19] →
  convert_chunks (cs ++ [(Some key, id, raw)]) = Raise (KeyError key).
Proof.
  intros Hkey%formats_None. rewrite convert_chunks_eq, last_snoc.
  unfold select_format, formats_getitem. by rewrite Hkey.
Qed.

Lemma unknown_code_raises_KeyError_witness :
  convert_chunks ([(Some 3, 0, [x01])] ++ [(Some 4, 1, [x02])])
    = Raise (KeyError 4).
Proof.
  apply (unknown_code_raises_KeyError [(Some 3, 0, [x01])] 4 1 [x02]).
  apply (bool_decide_unpack _). vm_compute. exact I.
Defined.

(** ** What [convert_to_mp3] hands to the encoders *)

Lemma stream_bytes_bounded cs :
  len (stream_bytes 0 cs) + len (stream_bytes 1 cs) ≤ payload_bytes cs.
Proof.
  induction cs as [|[[c id] raw] cs IH].
  { unfold payload_bytes, stream_bytes, len. simpl. lia. }
  rewrite !stream_bytes_cons.
  change ((c, id, raw) :: cs) with ([(c, id, raw)] ++ cs).
  rewrite payload_bytes_app.
  assert (payload_bytes [(c, id, raw)] = len raw) as ->.
  { unfold payload_bytes. simpl. by rewrite app_nil_r. }
  unfold len in *. simpl.
  repeat case_decide; subst; rewrite ?length_app; simpl; lia.
Qed.

(** When [convert_to_mp3] gets as far as the encoders, it starts
    exactly two: the first writes the caller file from the bytes of
    stream 0, the second the receiver file from the bytes of stream 1,
    both with one and the same format, which is a name of the table.
    Together they are fed no more bytes than the file has. *)
Theorem encoders_started (file : option bytes) (calls : list Popen) :
  convert_to_mp3 file = Ok calls →
  ∃ data format,
    file = Some data ∧
    format ∈ codecs ∧
    calls = [ {| input_format := format;
                 stdin := stream_bytes 0 (chunks (chunks_generator file));
                 output := "temp_caller.mp3" |};
              {| input_format := format;
                 stdin := stream_bytes 1 (chunks (chunks_generator file));
                 output := "temp_receiver.mp3" |} ] ∧
    len (stream_bytes 0 (chunks (chunks_generator file)))
      + len (stream_bytes 1 (chunks (chunks_generator file))) ≤ len data.
Proof.
  unfold convert_to_mp3. destruct file as [data|]; [|done].
  destruct (final (chunks_generator (Some data))) as [[]|e]; [|done].
  simpl. rewrite convert_chunks_eq.
  destruct (select_format _) as [format|e] eqn:Hformat; [|done].
  intros [= <-]. exists data, format. split_and!; [done| |done|].
  - by eapply select_format_Ok.
  - pose proof (stream_bytes_bounded (chunks (chunks_loop data 0))).
    pose proof (chunks_loop_payload data 0 ltac:(done)) as Hb.
    pose proof (len_nonneg data). lia.
Qed.

Lemma encoders_started_witness :
  ∃ data format,
    Some scenario = Some data ∧
    format ∈ codecs ∧
    [ {| input_format := "alaw"; stdin := replicate 28 xaa;
         output := "temp_caller.mp3" |};
      {| input_format := "alaw"; stdin := [];
         output := "temp_receiver.mp3" |} ]
    = [ {| input_format := format;
           stdin := stream_bytes 0 (chunks (chunks_generator (Some scenario)));
           output := "temp_caller.mp3" |};
        {| input_format := format;
           stdin := stream_bytes 1 (chunks (chunks_generator (Some scenario)));
           output := "temp_receiver.mp3" |} ] ∧
    len (stream_bytes 0 (chunks (chunks_generator (Some scenario))))
      + len (stream_bytes 1 (chunks (chunks_generator (Some scenario))))
      ≤ len data.
Proof.
  apply (encoders_started (Some scenario)). vm_compute. reflexivity.
Defined.

(** The exceptions of [convert_to_mp3]: the exit of the generator when
    the file cannot be read; a [struct.error] of the parser;
    [UnboundLocalError] for [compression] when the generator ended
    without a chunk; and [KeyError] for the code of the last chunk, a
    signed byte that is no key of [formats]. *)
Theorem convert_to_mp3_exceptions (file : option bytes) (e : exn) :
  convert_to_mp3 file = Raise e →
  (file = None ∧ e = SystemExit "No such file") ∨
  (∃ msg, e = struct_error msg) ∨
  (chunks (chunks_generator file) = [] ∧
   e = UnboundLocalError "compression") ∨
  (∃ key id raw,
     last (chunks (chunks_generator file)) = Some (Some key, id, raw) ∧
     e = KeyError key ∧
     (key ∉ [0; 1; 2; 3; 7; 8; 9; 10; 19]) ∧ (-128 ≤ key < 128)).
Proof.
  unfold convert_to_mp3. destruct file as [data|]; [|intros [= <-]; by left].
  cbn [chunks_generator].
  destruct (final (chunks_loop data 0)) as [[]|e'] eqn:Hfinal.
  - cbn [mbind result_bind]. rewrite convert_chunks_eq. intros H.
    apply bind_Raise in H as [H|(? & _ & ?)]; [|done].
    apply select_format_Raise in H as [[Hlast ->]|(key & Hlast & -> & Hkey)].
    + right. right. left. split; [|done].
      destruct (chunks _) as [|c cs] using rev_ind; [done|].
      rewrite last_snoc in Hlast. by destruct c as [[? ?] ?].
    + right. right. right.
      destruct (last _) as [[[c id] raw]|] eqn:Hl; [|done].
      injection Hlast as ->. exists key, id, raw.
      do 2 (split; [done|]). split; [by apply formats_None|].
      pose proof (chunks_loop_in_range data 0) as Hrange.
      rewrite Forall_forall in Hrange.
      apply last_Some_elem_of in Hl. by destruct (Hrange _ Hl) as [_ ?].
  - intros [= <-]. right. left.
    by eapply struct_errors_only_Raise, Hfinal; apply chunks_loop_struct_errors.
Qed.

Lemma convert_to_mp3_exceptions_witness :
  (Some (header_bytes 7 0 0 0 0) = None ∧
   UnboundLocalError "compression" = SystemExit "No such file") ∨
  (∃ msg, UnboundLocalError "compression" = struct_error msg) ∨
  (chunks (chunks_generator (Some (header_bytes 7 0 0 0 0))) = [] ∧
   UnboundLocalError "compression" = UnboundLocalError "compression") ∨
  (∃ key id raw,
     last (chunks (chunks_generator (Some (header_bytes 7 0 0 0 0))))
       = Some (Some key, id, raw) ∧
     UnboundLocalError "compression" = KeyError key ∧
     (key ∉ [0; 1; 2; 3; 7; 8; 9; 10; 19]) ∧ (-128 ≤ key < 128)).
Proof.
  apply (convert_to_mp3_exceptions (Some (header_bytes 7 0 0 0 0))).
  vm_compute. reflexivity.
Defined.

Lemma stream_bytes_app id cs1 cs2 :
  stream_bytes id (cs1 ++ cs2) = stream_bytes id cs1 ++ stream_bytes id cs2.
Proof. unfold stream_bytes. by rewrite filter_app, fmap_app, join_app. Qed.

Lemma stream_bytes_recode id (recode : Chunk → option Z) cs :
  stream_bytes id ((λ c : Chunk, (recode c, c.1.2, c.2)) <$> cs)
    = stream_bytes id cs.
Proof.
  induction cs as [|c cs IH]; [done|].
  rewrite fmap_cons, !stream_bytes_cons, IH. done.
Qed.

(** Of the compressions of a chunk sequence, only that of the last
    chunk reaches the encoders: whatever the compressions of the chunks
    before it are changed to, [convert_to_mp3] starts the same encoders
    or raises the same exception. *)
Theorem earlier_compressions_are_ignored
    (recode : Chunk → option Z) (cs : list Chunk) (c : Chunk) :
  convert_chunks (((λ c : Chunk, (recode c, c.1.2, c.2)) <$> cs) ++ [c])
    = convert_chunks (cs ++ [c]).
Proof.
  rewrite !convert_chunks_eq, !last_snoc, !stream_bytes_app.
  by rewrite !stream_bytes_recode.
Qed.

(** ** A container, packet by packet *)

Lemma slice_app_l {A} (pre rest : list A) (lo hi : Z) :
  0 ≤ lo → 0 ≤ hi ≤ len pre →
  slice (pre ++ rest) lo hi = slice pre lo hi.
Proof.
  intros Hlo Hhi. apply (slice_agree _ _ (length pre)); [|done..].
  by rewrite take_app_length, take_ge.
Qed.

Lemma slice_all {A} (data : list A) : slice data 0 (len data) = data.
Proof.
  pose proof (len_nonneg data). unfold slice, py_index.
  rewrite !(proj2 (Z.ltb_ge _ _)) by lia.
  rewrite Z.min_id, Z.min_l, Z.sub_0_r by lia. simpl.
  rewrite take_ge; [done|]. unfold len. rewrite Nat2Z.id. done.
Qed.

Lemma slice_shift {A} (pre rest : list A) (lo hi lo' hi' : Z) :
  lo' = len pre + lo → hi' = len pre + hi → 0 ≤ lo → 0 ≤ hi →
  slice (pre ++ rest) lo' hi' = slice rest lo hi.
Proof.
  intros -> -> Hlo Hhi. pose proof (len_nonneg pre).
  unfold slice, py_index. rewrite !(proj2 (Z.ltb_ge _ _)) by lia.
  unfold len in *. rewrite length_app, drop_app_ge by lia.
  f_equal; [lia|]. f_equal. lia.
Qed.

Lemma media_chunk_shift pre rest packet_header_end headers :
  0 ≤ packet_header_end →
  0 ≤ packet_size headers → 0 ≤ parameters_size headers →
  media_chunk (pre ++ rest) (len pre + packet_header_end) headers
    = media_chunk rest packet_header_end headers.
Proof.
  intros Hend Hsize Hparams. unfold media_chunk.
  destruct (is_media headers); [|done]. cbv zeta.
  set (e := packet_header_end). set (p := parameters_size headers).
  set (n := packet_size headers).
  replace (len pre + e + p + n - p - (len pre + e + p)) with (n - p) by lia.
  replace (e + p + n - p - (e + p)) with (n - p) by lia.
  rewrite (slice_shift pre rest (e + p) (e + p + n - p)
             (len pre + e + p) (len pre + e + p + n - p)) by lia.
  rewrite (slice_shift pre rest e (e + p)
             (len pre + e) (len pre + e + p)) by lia.
  done.
Qed.

(** The run behind a prefix of the container is the run on the rest,
    with the cursors counted from the end of the prefix. *)
Lemma chunks_loop_shift pre rest start :
  0 ≤ start →
  chunks_loop (pre ++ rest) (len pre + start)
    = {| decoded :=
           (λ p, (len pre + p.1, p.2)) <$> decoded (chunks_loop rest start);
         chunks := chunks (chunks_loop rest start);
         final := final (chunks_loop rest start) |}.
Proof.
  revert start.
  apply (packet_loop_ind rest (λ start run,
    0 ≤ start →
    chunks_loop (pre ++ rest) (len pre + start)
      = {| decoded := (λ p, (len pre + p.1, p.2)) <$> decoded run;
           chunks := chunks run; final := final run |}));
    intros s.
  - intros e Hh Hs. rewrite chunks_loop_eq.
    rewrite (slice_shift pre rest s (s + 28)) by lia. by rewrite Hh.
  - intros h e Hh Hm Hs. rewrite chunks_loop_eq.
    pose proof (get_packet_header_Ok _ _ Hh) as (_ & Hsize & Hparams).
    rewrite (slice_shift pre rest s (s + 28)) by lia. rewrite Hh.
    replace (len pre + s + 28) with (len pre + (s + 28)) by lia.
    rewrite media_chunk_shift by lia. by rewrite Hm.
  - intros h em Hh Hm H7 Hs. rewrite chunks_loop_eq.
    pose proof (get_packet_header_Ok _ _ Hh) as (_ & Hsize & Hparams).
    rewrite (slice_shift pre rest s (s + 28)) by lia. rewrite Hh.
    replace (len pre + s + 28) with (len pre + (s + 28)) by lia.
    rewrite media_chunk_shift by lia. by rewrite Hm, H7.
  - intros h em Hh Hm H7 IH Hs. rewrite chunks_loop_eq.
    pose proof (get_packet_header_Ok _ _ Hh) as (_ & Hsize & Hparams).
    rewrite (slice_shift pre rest s (s + 28)) by lia. rewrite Hh.
    replace (len pre + s + 28) with (len pre + (s + 28)) by lia.
    rewrite media_chunk_shift by lia.
    rewrite Hm, (proj2 (Z.eqb_neq _ _)) by done.
    replace (len pre + s + (packet_size h + 28))
      with (len pre + (s + (packet_size h + 28))) by lia.
    rewrite IH by lia. done.
Qed.

Lemma pack_header_len headers : len (pack_header headers) = 28.
Proof. done. Qed.

(** The generator works packet by packet.  For a container that begins
    with a whole packet -- the 28 bytes of a header and as many bytes as
    its [packet_size] says -- what the packet yields is decided by the
    packet alone; a packet of type 7 ends the run, an exception of the
    packet ends it too, and otherwise the run goes on as the run on the
    rest of the container. *)
Theorem generator_packet_by_packet
    (headers : PacketHeader) (body rest : bytes) :
  header_in_range headers →
  len body = packet_size headers →
  match media_chunk (pack_header headers ++ body) 28 headers with
  | Raise e =>
      chunks (chunks_generator (Some (pack_header headers ++ body ++ rest)))
        = [] ∧
      final (chunks_generator (Some (pack_header headers ++ body ++ rest)))
        = Raise e
  | Ok emitted =>
      if packet_type headers =? 7 then
        chunks (chunks_generator (Some (pack_header headers ++ body ++ rest)))
          = emitted ∧
        final (chunks_generator (Some (pack_header headers ++ body ++ rest)))
          = Ok ()
      else
        chunks (chunks_generator (Some (pack_header headers ++ body ++ rest)))
          = emitted ++ chunks (chunks_generator (Some rest)) ∧
        final (chunks_generator (Some (pack_header headers ++ body ++ rest)))
          = final (chunks_generator (Some rest))
  end.
Proof.
  intros Hrange Hbody. cbn [chunks_generator].
  pose proof Hrange as (_ & _ & _ & _ & _ & Hsize & Hparams).
  rewrite (chunks_loop_eq (pack_header headers ++ body ++ rest) 0).
  rewrite slice_app_l by done.
  change (0 + 28) with (len (pack_header headers)).
  rewrite slice_all, get_packet_header_pack by done.
  rewrite (app_assoc (pack_header headers) body rest).
  rewrite (media_chunk_agree (pack_header headers ++ body)
             ((pack_header headers ++ body) ++ rest)
             (length (pack_header headers ++ body)) (0 + 28));
    [|by rewrite take_app_length, take_ge|done|lia..|].
  2: { unfold len in *. rewrite length_app. change (length (pack_header headers)) with 28%nat. lia. }
  change (0 + 28) with 28.
  destruct (media_chunk (pack_header headers ++ body) 28 headers)
    as [emitted|e]; [|done].
  destruct (packet_type headers =? 7); [done|].
  replace (0 + (packet_size headers + 28))
    with (len (pack_header headers ++ body) + 0).
  2: { unfold len in *. rewrite length_app. change (length (pack_header headers)) with 28%nat. lia. }
  by rewrite chunks_loop_shift.
Qed.

(** A media packet of stream 1 with two bytes of payload and no
    parameters, before a terminal header. *)
Lemma generator_packet_by_packet_witness :
  chunks (chunks_generator
    (Some (pack_header
             {| packet_type := 4; packet_subtype := 0; stream_id := 1;
                start_time := 0; end_time := 0;
                packet_size := 2; parameters_size := 0 |}
           ++ [x0a; x0b] ++ header_bytes 7 0 0 0 0)))
    = [(None, 1, [x0a; x0b])]
      ++ chunks (chunks_generator (Some (header_bytes 7 0 0 0 0))) ∧
  final (chunks_generator
    (Some (pack_header
             {| packet_type := 4; packet_subtype := 0; stream_id := 1;
                start_time := 0; end_time := 0;
                packet_size := 2; parameters_size := 0 |}
           ++ [x0a; x0b] ++ header_bytes 7 0 0 0 0)))
    = final (chunks_generator (Some (header_bytes 7 0 0 0 0))).
Proof.
  apply (generator_packet_by_packet
    {| packet_type := 4; packet_subtype := 0; stream_id := 1;
       start_time := 0; end_time := 0;
       packet_size := 2; parameters_size := 0 |}
    [x0a; x0b] (header_bytes 7 0 0 0 0)).
  - unfold header_in_range. simpl. lia.
  - reflexivity.
Defined.

(** ** The batch *)

Lemma run_files_app finishes files1 files2 :
  run_files finishes (files1 ++ files2)
    = match run_files finishes files1 with
      | (converted, Some exit) => (converted, Some exit)
      | (converted, None) =>
          let '(converted', exit) := run_files finishes files2 in
          (converted ++ converted', exit)
      end.
Proof.
  induction files1 as [|file files1 IH]; simpl.
  { by destruct (run_files finishes files2). }
  destruct (convert_to_mp3 file.2) as [calls|[]]; try done.
  destruct (finishes _ _ calls); [|done].
  rewrite IH. destruct (run_files finishes files1) as [converted [exit|]];
    [done|]. by destruct (run_files finishes files2).
Qed.

Lemma main_files_flat finishes hour_folder listing :
  main_files finishes hour_folder listing
    = run_files finishes
        ((λ file : string * option bytes, (hour_folder, file.1, file.2)) <$>
           filter (λ file : string * option bytes, endswith file.1 ".nmf")
             listing).
Proof.
  induction listing as [|[file_name content] listing IH]; [done|].
  rewrite filter_cons. cbn [main_files fst snd].
  destruct (endswith file_name ".nmf"); simpl; [|done].
  by rewrite IH.
Qed.

Lemma main_folders_flat finishes folders :
  main_folders finishes folders = run_files finishes (nmf_files folders).
Proof.
  unfold nmf_files. induction folders as [|folder folders IH]; [done|].
  rewrite filter_cons. cbn [main_folders].
  destruct (folder_isdir folder); simpl; [|done].
  by rewrite run_files_app, main_files_flat, IH.
Qed.

Lemma run_files_all finishes files :
  Forall (converts finishes) files →
  run_files finishes files = (conversion_of <$> files, None).
Proof.
  induction 1 as [|file files (calls & Hcalls & Hfin) _ IH]; [done|].
  cbn [run_files fmap list_fmap]. unfold conversion_of at 1.
  by rewrite Hcalls, Hfin, IH.
Qed.

Lemma run_files_first_failure finishes before bad after :
  Forall (converts finishes) before →
  ¬ converts finishes bad →
  run_files finishes (before ++ bad :: after)
    = (conversion_of <$> before, Some (exit_of bad)).
Proof.
  intros Hbefore Hbad. rewrite run_files_app, run_files_all by done.
  cbn [run_files]. unfold exit_of, converts in *.
  destruct (convert_to_mp3 bad.2) as [calls|[]]; rewrite ?app_nil_r; try done.
  destruct (finishes _ _ calls) eqn:Hfin; [|by rewrite app_nil_r].
  destruct Hbad. by exists calls.
Qed.

(** One file that is not converted ends the whole batch: the script
    exits at the first file for which [convert_to_mp3] raises, whatever
    the exception, and opens none of the files that come after it; the
    files before it have been converted. *)
Theorem batch_stops_at_first_failure
    (finishes : string → string → list Popen → bool)
    (argv : list string) (folders : list Folder)
    (before after : list (string * string * option bytes))
    (bad : string * string * option bytes) :
  (3 ≤ length argv)%nat →
  nmf_files folders = before ++ bad :: after →
  Forall (converts finishes) before →
  ¬ converts finishes bad →
  main finishes argv folders = (conversion_of <$> before, exit_of bad).
Proof.
  intros Hargv Hfiles Hbefore Hbad.
  destruct argv as [|? [|? [|? ?]]]; simpl in Hargv; try lia.
  unfold main. rewrite main_folders_flat, Hfiles.
  by rewrite run_files_first_failure.
Qed.

(** When every [.nmf] file of the directories is converted, the script
    converts them all, in the order of the listings, and reaches its
    end. *)
Theorem batch_converts_all
    (finishes : string → string → list Popen → bool)
    (argv : list string) (folders : list Folder) :
  (3 ≤ length argv)%nat →
  Forall (converts finishes) (nmf_files folders) →
  main finishes argv folders = (conversion_of <$> nmf_files folders, exit_end).
Proof.
  intros Hargv Hall.
  destruct argv as [|? [|? [|? ?]]]; simpl in Hargv; try lia.
  unfold main. rewrite main_folders_flat. by rewrite run_files_all.
Qed.

(** The script looks at nothing but the [.nmf] files of the entries
    that are directories: two source folders with the same such files,
    in the same order, make it do the same. *)
Theorem batch_depends_on_nmf_files
    (finishes : string → string → list Popen → bool)
    (argv : list string) (folders folders' : list Folder) :
  nmf_files folders = nmf_files folders' →
  main finishes argv folders = main finishes argv folders'.
Proof.
  intros Hfiles. unfold main. by rewrite !main_folders_flat, Hfiles.
Qed.

Lemma batch_stops_at_first_failure_witness :
  main (λ _ _ _, true) ["convert.py"; "in"; "out"]%string voice_folders
    = (conversion_of <$> [("08", "a.nmf", Some scenario)]%string,
       exit_of ("08", "b.nmf", Some [])%string).
Proof.
  apply (batch_stops_at_first_failure (λ _ _ _, true)
    ["convert.py"; "in"; "out"]%string voice_folders
    [("08", "a.nmf", Some scenario)]%string
    [("08", "c.nmf", Some scenario)]%string
    ("08", "b.nmf", Some [])%string).
  - simpl. lia.
  - vm_compute. reflexivity.
  - apply Forall_singleton. eexists. split; [vm_compute|]; reflexivity.
  - intros (calls & Hcalls & _). vm_compute in Hcalls. discriminate Hcalls.
Defined.

Lemma batch_converts_all_witness :
  main (λ _ _ _, true) ["convert.py"; "in"; "out"]%string good_folders
    = (conversion_of <$> nmf_files good_folders, exit_end).
Proof.
  apply (batch_converts_all (λ _ _ _, true)
    ["convert.py"; "in"; "out"]%string good_folders).
  - simpl. lia.
  - replace (nmf_files good_folders)
      with [("08", "a.nmf", Some scenario)]%string
      by (vm_compute; reflexivity).
    apply Forall_singleton. eexists. split; [vm_compute|]; reflexivity.
Defined.

Lemma batch_depends_on_nmf_files_witness :
  main (λ _ _ _, true) ["convert.py"; "in"; "out"]%string voice_folders
    = main (λ _ _ _, true) ["convert.py"; "in"; "out"]%string
        [ {| folder_name := "08"; folder_isdir := true;
             folder_listing :=
               [ ("a.nmf", Some scenario); ("b.nmf", Some []);
                 ("c.nmf", Some scenario) ]%string |} ].
Proof.
  apply (batch_depends_on_nmf_files (λ _ _ _, true)
    ["convert.py"; "in"; "out"]%string voice_folders).
  vm_compute. reflexivity.
Defined.

(** The batch on the source folder above: the first recording is
    converted, the empty one ends the script with the [struct.error]
    of its first header, and the third is not opened. *)
Example batch_on_voice_folders :
  main (λ _ _ _, true) ["convert.py"; "in"; "out"]%string voice_folders
    = ([ ("08", "a.nmf",
          [ {| input_format := "alaw"; stdin := replicate 28 xaa;
               output := "temp_caller.mp3" |};
            {| input_format := "alaw"; stdin := [];
               output := "temp_receiver.mp3" |} ]) ]%string,
       exit_error (struct_error (requires_buffer 1))).
Proof. by vm_compute. Qed.

(** ** When a block gives a code *)

Lemma get_compression_type_cases data :
  get_compression_type data
    = match find (λ r, type_id r =? 10) (complete_records data) with
      | Some r => Some <$> get_data_value (payload r) (data_size r)
      | None =>
          if len data mod 22 =? 0 then Ok None
          else Raise (partial_record_error (len data mod 22))
      end.
Proof.
  pose proof (len_nonneg data) as Hnonneg.
  unfold get_compression_type, complete_records, py_range.
  set (n := Z.to_nat (len data / 22)).
  assert (22 * Z.of_nat n ≤ len data < 22 * Z.of_nat n + 22 ∧
          len data mod 22 = len data - 22 * Z.of_nat n) as (Hn & Hmod)
    by (unfold n; Z.div_mod_to_equations; lia).
  destruct (Z.eqb_spec (len data mod 22) 0) as [Hzero|Hrest].
  - replace (Z.to_nat ((len data - 0 + 22 - 1) / 22)) with n
      by (Z.div_mod_to_equations; lia).
    rewrite <-(app_nil_r (_ <$> seq 0 n)).
    by rewrite scan_complete_records by lia.
  - replace (Z.to_nat ((len data - 0 + 22 - 1) / 22)) with (S n)
      by (Z.div_mod_to_equations; lia).
    rewrite seq_S, fmap_app. cbn [fmap list_fmap].
    rewrite scan_complete_records by lia.
    destruct (find _ _); [done|].
    rewrite scan_partial_record by lia. by rewrite Hmod, Z.add_0_l.
Qed.

Lemma get_data_value_first_byte data :
  get_data_value data 1
    = match data with
      | [] => Raise (struct_error (requires_buffer 1))
      | b :: _ => Ok (struct.to_signed 8 (Z.of_N (Byte.to_N b)))
      end.
Proof.
  rewrite get_data_value_eq. destruct data as [|b rest]; [done|].
  assert (slice (b :: rest) 0 1 = [b]) as ->.
  { pose proof (len_nonneg rest). unfold slice, py_index.
    change (len (b :: rest)) with (Z.of_nat (S (length rest))).
    change (0 <? 0) with false. change (1 <? 0) with false. cbv iota.
    rewrite !Z.min_l by lia. done. }
  unfold struct.unpack_s, struct.unpack_b.
  change (1 <? 0) with false. cbv iota.
  rewrite (unpack_sized_exact 1 (λ bs, bs)) by done.
  cbn [mbind result_bind]. rewrite unpack_sized_exact by done.
  cbn [struct.le_unsigned]. by rewrite Z.mul_0_r, Z.add_0_r.
Qed.

(** The scan and the extraction together.  A parameter block gives a
    code exactly when its first complete record of type 10 has
    [data_size] 1, and the code is then the first byte of the payload
    of that record as a signed byte; it gives [None] exactly when it is
    a whole number of records none of which has type 10.  Every other
    block makes [get_compression_type] raise. *)
Theorem compression_of_block (data : bytes) :
  (∀ code,
     get_compression_type data = Ok (Some code) ↔
     ∃ r, find (λ r, type_id r =? 10) (complete_records data) = Some r ∧
          data_size r = 1 ∧
          first_byte_signed (payload r) 1 = Some code) ∧
  (get_compression_type data = Ok None ↔
   find (λ r, type_id r =? 10) (complete_records data) = None ∧
   len data mod 22 = 0).
Proof.
  rewrite get_compression_type_cases.
  destruct (find _ (complete_records data)) as [r|]; split.
  - intros code. split.
    + intros H. exists r. split; [done|].
      destruct (get_data_value (payload r) (data_size r)) as [v|] eqn:Hv;
        [|done].
      injection H as ->.
      pose proof (get_data_value_Ok _ _ _ Hv) as Hone. split; [done|].
      rewrite Hone, get_data_value_first_byte in Hv.
      unfold first_byte_signed. destruct (payload r); [done|].
      by injection Hv as <-.
    + intros (r' & [= <-] & Hone & Hb). rewrite Hone.
      rewrite get_data_value_first_byte. unfold first_byte_signed in Hb.
      destruct (payload r); [done|]. by injection Hb as <-.
  - split; [|by intros [? _]].
    by destruct (get_data_value (payload r) (data_size r)).
  - intros code. split; [by case_match|]. by intros (r & ? & _).
  - destruct (Z.eqb_spec (len data mod 22) 0); split; try done.
    by intros [_ ?].
Qed.

(** The name test of the inner loop: the suffix alone passes, a name
    without the dot does not. *)
Example endswith_nmf :
  endswith "a.nmf" ".nmf" = true ∧ endswith ".nmf" ".nmf" = true ∧
  endswith "nmf" ".nmf" = false ∧ endswith "a.nmf.txt" ".nmf" = false.
Proof. by vm_compute. Qed.
